(** * Document Extractor: page-range parsing, page selection and export

    A shallow embedding of [PdfExtractor/PDFEXTRCT.py].

    - Python [int] is [Z]; a Python [str] is a [string] whose characters are
      the code points below 256, one [ascii] per code point.
    - The [set] built by [parse_page_range] is a [gset Z], [sorted] is a
      merge sort of its elements by [Z.le].
    - A raised exception is a value of [result]; [try]/[except] is [catch].
    - The list widget is a record holding its items and the rows of the
      selected items in the order in which [selectedItems()] reports them.
    - The PDF engine, the imaging library and the file system are oracles:
      a document says, page by page, what [get_pixmap] answers, and the
      environment says which folders and files can be written. *)

From Stdlib Require Import ZArith Ascii String.
From stdpp Require Import list list_numbers sorting gmap strings pretty.

Local Open Scope string_scope.
Local Open Scope list_scope.
Local Open Scope Z_scope.

(** ** Exceptions *)

Module Py.

(** The exception classes the program distinguishes: [except ValueError]
    catches the first only, [except Exception] catches both. *)
Inductive exception : Set :=
  | ValueError
  | OtherException.

Inductive result (A : Type) : Type :=
  | Return (a : A)
  | Raise (e : exception).
Arguments Return {A} a.
Arguments Raise {A} e.

#[global] Instance result_ret : MRet result := @Return.
#[global] Instance result_bind : MBind result := fun A B f m =>
  match m with
  | Return a => f a
  | Raise e => Raise e
  end.

(** [try: body except ValueError: handler] *)
Definition catch_ValueError {A} (body : result A) (handler : result A) : result A :=
  match body with
  | Raise ValueError => handler
  | r => r
  end.

(** [try: body except Exception as e: handler e] *)
Definition catch_Exception {A} (body : result A) (handler : exception -> A) : A :=
  match body with
  | Return a => a
  | Raise e => handler e
  end.

(** ** Strings *)

(** [str.isspace] on the code points below 256: TAB..CR, FS..US, space,
    NEL and the no-break space. *)
Definition isspace (c : ascii) : bool :=
  let n := N_of_ascii c in
  ((9 <=? n) && (n <=? 13) || (28 <=? n) && (n <=? 31) || (n =? 32)
   || (n =? 133) || (n =? 160))%N.

(** [s.lstrip()] *)
Fixpoint lstrip (s : string) : string :=
  match s with
  | String c r => if isspace c then lstrip r else s
  | EmptyString => EmptyString
  end.

(** [s.rstrip()] *)
Fixpoint rstrip (s : string) : string :=
  match s with
  | String c r =>
      match rstrip r with
      | EmptyString => if isspace c then EmptyString else String c EmptyString
      | r' => String c r'
      end
  | EmptyString => EmptyString
  end.

(** [s.strip()] *)
Definition strip (s : string) : string := rstrip (lstrip s).

(** [sep in s] for a one-character [sep] *)
Fixpoint contains (sep : ascii) (s : string) : bool :=
  match s with
  | String c r => if Ascii.eqb c sep then true else contains sep r
  | EmptyString => false
  end.

(** [s.split(sep)] for a one-character [sep]: one more piece than there are
    separators, empty pieces kept. *)
Fixpoint split (sep : ascii) (s : string) : list string :=
  match s with
  | String c r =>
      if Ascii.eqb c sep then EmptyString :: split sep r
      else match split sep r with
           | piece :: pieces => String c piece :: pieces
           | [] => [String c EmptyString]
           end
  | EmptyString => [EmptyString]
  end.

(** ** [int(str)] in base 10 *)

(** The white space [int] skips around the literal: what C's [isspace]
    accepts, and the spaces above 127 that are turned into blanks first.
    The program hands [int] stripped strings only, and [str.strip] removes
    all of these. *)
Definition int_isspace (c : ascii) : bool :=
  let n := N_of_ascii c in
  ((9 <=? n) && (n <=? 13) || (n =? 32) || (n =? 133) || (n =? 160))%N.

Fixpoint int_skip_space (s : string) : string :=
  match s with
  | String c r => if int_isspace c then int_skip_space r else s
  | EmptyString => EmptyString
  end.

Definition isdigit (c : ascii) : bool :=
  let n := N_of_ascii c in ((48 <=? n) && (n <=? 57))%N.

Definition digit_value (c : ascii) : Z := Z.of_N (N_of_ascii c) - 48.

Definition is_underscore (c : ascii) : bool := Ascii.eqb c "_".

(** The scan over digits and underscores: [prev] tells whether the previous
    character was an underscore, [digits] counts the digits seen, [acc] is
    their value. It stops at the first other character and fails on a
    doubled or a trailing underscore. *)
Fixpoint scan_digits (s : string) (prev : bool) (digits : nat) (acc : Z)
  : option (nat * Z * string) :=
  match s with
  | String c r =>
      if isdigit c then scan_digits r false (S digits) (10 * acc + digit_value c)
      else if is_underscore c then
        if prev then None else scan_digits r true digits acc
      else if prev then None else Some (digits, acc, s)
  | EmptyString => if prev then None else Some (digits, acc, s)
  end.

Section Int.
(** [sys.get_int_max_str_digits()]: 0 switches the limit off (as do the
    interpreters that have no such limit), otherwise it is at least 640. *)
Variable max_str_digits : nat.

Definition int (s : string) : result Z :=
  let s := int_skip_space s in
  let '(sign, s) :=
    match s with
    | String "+" r => (1, r)
    | String "-" r => (-1, r)
    | _ => (1, s)
    end in
  match s with
  | String "_" _ => Raise ValueError
  | _ =>
      match scan_digits s false 0 0 with
      | None => Raise ValueError
      | Some (digits, value, rest) =>
          if (digits =? 0)%nat then Raise ValueError
          else match int_skip_space rest with
               | String _ _ => Raise ValueError
               | EmptyString =>
                   if (640 <? digits)%nat && (0 <? max_str_digits)%nat
                      && (max_str_digits <? digits)%nat
                   then Raise ValueError
                   else Return (sign * value)
               end
      end
  end.
End Int.

(** [range(start, stop)] *)
Definition range (start stop : Z) : list Z := seqZ start (stop - start).

(** [sorted(pages)] for a set of integers *)
Definition sorted (pages : gset Z) : list Z := merge_sort Z.le (elements pages).

End Py.

Import Py.

(** ** The range parser *)

Section Parser.
Variable max_str_digits : nat.

(** The body of the [for part in parts] loop of [parse_page_range]: the
    set [pages] after the iteration, or the exception that leaves the
    loop. [continue] is the unchanged set. *)
Definition parse_part (total_pages : Z) (pages : gset Z) (part : string)
  : result (gset Z) :=
  let part := strip part in
  match part with
  | EmptyString => Return pages
  | _ =>
      if contains "-" part then
        match split "-" part with
        | [start_text; end_text] =>
            catch_ValueError
              (start ← int max_str_digits (strip start_text);
               end_ ← int max_str_digits (strip end_text);
               if (start >? end_) || (start <? 1) || (end_ >? total_pages)
               then Return pages
               else Return (pages ∪ list_to_set (range start (end_ + 1))))
              (Return pages)
        | _ => Raise ValueError
        end
      else
        catch_ValueError
          (page ← int max_str_digits part;
           if (1 <=? page) && (page <=? total_pages)
           then Return (pages ∪ {[page]})
           else Return pages)
          (Return pages)
  end.

Fixpoint parse_parts (total_pages : Z) (pages : gset Z) (parts : list string)
  : result (gset Z) :=
  match parts with
  | [] => Return pages
  | part :: parts =>
      pages ← parse_part total_pages pages part;
      parse_parts total_pages pages parts
  end.

Definition parse_page_range (range_text : string) (total_pages : Z)
  : result (list Z) :=
  pages ← parse_parts total_pages ∅ (split "," range_text);
  Return (sorted pages).
End Parser.

(** ** The collaborators: PDF engine, imaging library, file system *)

(** A path is kept as the expression that built it. *)
Inductive path : Set :=
  | path_of (text : string)
  | join (folder : path) (name : string)   (* [os.path.join(folder, name)] *)
  | pdf_beside (doc_path : path).          (* [os.path.splitext(doc_path)[0] + '.pdf'] *)

(** What [get_pixmap] hands to the thumbnail list. *)
Record Pixmap : Set := {
  pix_width : Z;
  pix_height : Z;
  pix_stride : Z;
  pix_samples : list N
}.

(** An RGB image of the imaging library, [Image.frombytes("RGB", [w, h], data)]. *)
Record Image : Set := {
  width : Z;
  height : Z;
  data : list N
}.

(** The image made by [Image.new("RGB", (w, h))] and the [paste] calls it
    received, in the order of the calls, each with its [(x, y)] box. *)
Record Canvas : Set := {
  canvas_width : Z;
  canvas_height : Z;
  pasted : list (Image * (Z * Z))
}.

(** A page of an opened document answers the two rasterisations the program
    asks for: [thumbnail] is the [try] body of [load_pages] (the pixmap at
    scale 0.25), [raster] is [get_pixmap()] followed by [Image.frombytes]. *)
Record Page : Set := {
  thumbnail : result Pixmap;
  raster : result Image
}.

Record Document : Set := { pages : list Page }.

(** [len(pdf_doc)] *)
Definition len (pdf_doc : Document) : nat := length (pages pdf_doc).

(** [pdf_doc[page_num]] for a row of the list widget; outside the document
    the engine raises. *)
Definition getitem (pdf_doc : Document) (page_num : nat) : result Page :=
  match pages pdf_doc !! page_num with
  | Some page => Return page
  | None => Raise OtherException
  end.

(** A document is true when it has pages ([__len__]). *)
Definition truthy (pdf_doc : option Document) : option Document :=
  match pdf_doc with
  | Some d => if (len d =? 0)%nat then None else Some d
  | None => None
  end.

(** The file system as the handler finds it. *)
Record Env : Type := {
  getcwd : path;
  exists_ : path -> bool;            (* [os.path.exists] *)
  makedirs : path -> result unit;    (* [os.makedirs] *)
  save : path -> result unit         (* [img.save], [new_pdf.save] *)
}.

(** ** Messages and effects *)

Inductive message : Set :=
  | No_document_loaded
  | Please_enter_a_page_range
  | No_valid_pages_in_the_specified_range
  | Invalid_page_range (e : exception)
  | Selected_pages (n : nat)
  | No_pages_selected
  | No_valid_pages_to_extract
  | Error_during_extraction (e : exception)
  | Saved_combined_image_to (output_path : path)
  | Extraction_complete
  | Extracted_pages_to (success_count : nat) (output_folder : path)
  | Extracted_pages (success_count : nat)
  | Failed_to_extract_any_pages
  | PDF_saved_to (p : path)
  | PDF_saved_successfully
  | PDF_save_failed (e : exception)
  | Failed_to_load_PDF (e : exception)
  | Loaded (file_path : path)
  | Converted_to_PDF (pdf_path : path)
  | Conversion_failed
  | Error_loading_page (n : nat)
  | Error_processing_page (n : nat)
  | Error_extracting_page (n : nat)
  | Ready.

Inductive effect : Set :=
  | show_error (m : message)
  | show_success (m : message)
  | print (m : message)
  | os_makedirs (folder : path)
  | os_system_soffice (doc_path : path)
  | save_image (file : path) (img : Image)
  | save_canvas (file : path) (combined : Canvas)
  | save_pdf (file : path) (new_pdf : list Page).

(** ** The thumbnail list *)

Record Item : Set := {
  text : string;                 (* [f"Page {page_num + 1}"] *)
  user_data : nat * Pixmap       (* [(page_num, img_data)] *)
}.

(** The class extends the toolkit's [QListWidget]; what the program uses of
    the base class is modelled with it. An item is named by its row:
    [load_pages] only appends items and [clear] removes them all, so
    [row(item)] is fixed while the item lives. The toolkit's selection model
    keeps the selected ranges in the order in which they were selected, and
    [selectedItems()] walks them in that order without sorting by row:
    [selection] lists the selected rows in that order. *)
Record ThumbnailListWidget : Set := {
  items : list Item;
  selection : list nat;
  placeholder_visible : bool
}.

Definition count (w : ThumbnailListWidget) : nat := length (items w).

Definition selectedItems (w : ThumbnailListWidget) : list nat := selection w.

(** [row(item)] *)
Definition row (item : nat) : nat := item.

Definition clear (w : ThumbnailListWidget) : ThumbnailListWidget :=
  {| items := []; selection := []; placeholder_visible := placeholder_visible w |}.

Definition addItem (item : Item) (w : ThumbnailListWidget) : ThumbnailListWidget :=
  {| items := items w ++ [item]; selection := selection w;
     placeholder_visible := placeholder_visible w |}.

Definition clearSelection (w : ThumbnailListWidget) : ThumbnailListWidget :=
  {| items := items w; selection := []; placeholder_visible := placeholder_visible w |}.

Definition remove_row (r : nat) (rows : list nat) : list nat :=
  filter (fun r' => r' ≠ r) rows.

(** [item(r).setSelected(True)]: the new range goes to the end of the
    selection; a range it overlaps is taken out first. *)
Definition setSelected (r : nat) (w : ThumbnailListWidget) : ThumbnailListWidget :=
  {| items := items w; selection := remove_row r (selection w) ++ [r];
     placeholder_visible := placeholder_visible w |}.

(** A click on the item at row [r] in [MultiSelection] mode toggles it;
    there is nothing to click outside the items. *)
Definition click (r : nat) (w : ThumbnailListWidget) : ThumbnailListWidget :=
  if decide (r < count w)%nat then
    if decide (r ∈ selection w) then
      {| items := items w; selection := remove_row r (selection w);
         placeholder_visible := placeholder_visible w |}
    else setSelected r w
  else w.

(** One round of the loop of [load_pages]. *)
Definition load_page (pdf_doc : Document) (page_num : nat)
    (st : ThumbnailListWidget * list effect) : ThumbnailListWidget * list effect :=
  let '(w, out) := st in
  match page ← getitem pdf_doc page_num; thumbnail page with
  | Return pix =>
      (addItem {| text := "Page " +:+ pretty (page_num + 1)%nat;
                  user_data := (page_num, pix) |} w, out)
  | Raise _ => (w, out ++ [print (Error_loading_page (page_num + 1))])
  end.

Definition load_pages (pdf_doc : option Document) (w : ThumbnailListWidget)
  : ThumbnailListWidget * list effect :=
  let w := clear w in
  let '(w, out) :=
    match truthy pdf_doc with
    | Some d => fold_left (fun st page_num => load_page d page_num st) (seq 0 (len d)) (w, [])
    | None => (w, [])
    end in
  ({| items := items w; selection := selection w;
      placeholder_visible := (count w =? 0)%nat |}, out).

(** ** The application *)

Record DocumentExtractorApp : Type := {
  pdf_doc : option Document;
  current_file : option path;
  page_list : ThumbnailListWidget;
  range_input : string;
  folder_path : string;
  status_bar : message
}.

Definition init : DocumentExtractorApp :=
  {| pdf_doc := None; current_file := None;
     page_list := {| items := []; selection := []; placeholder_visible := true |};
     range_input := ""; folder_path := ""; status_bar := Ready |}.

Definition set_page_list (w : ThumbnailListWidget) (self : DocumentExtractorApp) :=
  {| pdf_doc := pdf_doc self; current_file := current_file self; page_list := w;
     range_input := range_input self; folder_path := folder_path self;
     status_bar := status_bar self |}.

Definition showMessage (m : message) (self : DocumentExtractorApp) :=
  {| pdf_doc := pdf_doc self; current_file := current_file self;
     page_list := page_list self; range_input := range_input self;
     folder_path := folder_path self; status_bar := m |}.

Definition set_document (d : option Document) (file : option path)
    (self : DocumentExtractorApp) :=
  {| pdf_doc := d; current_file := file; page_list := page_list self;
     range_input := range_input self; folder_path := folder_path self;
     status_bar := status_bar self |}.

(** [load_pdf]; [opened] is what [fitz.open(file_path)] answers. *)
Definition load_pdf (file_path : path) (opened : result Document)
    (self : DocumentExtractorApp) : DocumentExtractorApp * list effect :=
  match opened with
  | Return d =>
      let self := set_document (Some d) (Some file_path) self in
      let '(w, out) := load_pages (pdf_doc self) (page_list self) in
      (showMessage (Loaded file_path) (set_page_list w self), out)
  | Raise e =>
      (set_document None None self, [show_error (Failed_to_load_PDF e)])
  end.

(** [convert_doc_to_pdf]; [converted] tells whether the converter left the
    PDF beside the document. *)
Definition convert_doc_to_pdf (doc_path : path) (converted : bool)
    (opened : result Document) (self : DocumentExtractorApp)
  : DocumentExtractorApp * list effect :=
  let pdf_path := pdf_beside doc_path in
  if converted then
    let '(self, out) := load_pdf pdf_path opened self in
    (self, os_system_soffice doc_path :: out ++ [show_success (Converted_to_PDF pdf_path)])
  else (self, [os_system_soffice doc_path; show_error Conversion_failed]).

(** ** Drag and drop *)

(** [s.lower()] on the code points below 256: the letters A..Z and the
    accented capitals, the multiplication sign apart, move up by 32. *)
Definition lower_char (c : ascii) : ascii :=
  let n := N_of_ascii c in
  if ((65 <=? n) && (n <=? 90) || (192 <=? n) && (n <=? 222) && negb (n =? 215))%N
  then ascii_of_N (n + 32)
  else c.

Fixpoint lower (s : string) : string :=
  match s with
  | String c r => String (lower_char c) (lower r)
  | EmptyString => EmptyString
  end.

(** [s.endswith(suffix)]: some tail of [s] is [suffix]. *)
Fixpoint endswith (s suffix : string) : bool :=
  if String.eqb s suffix then true
  else match s with
       | String _ r => endswith r suffix
       | EmptyString => false
       end.

(** [s.endswith((suffix1, suffix2, ...))] *)
Definition endswith_any (s : string) (suffixes : list string) : bool :=
  existsb (endswith s) suffixes.

(** [event.mimeData()]: whether it has URLs, and [toLocalFile()] of each. *)
Record MimeData : Set := {
  hasUrls : bool;
  urls : list string
}.

(** [dragEnterEvent]: [true] is [acceptProposedAction()], [false] is
    [ignore()]. *)
Definition dragEnterEvent (mimeData : MimeData) : bool :=
  if hasUrls mimeData then
    existsb (fun url => endswith_any (lower url) [".pdf"; ".doc"; ".docx"])
            (urls mimeData)
  else false.

(** [dropEvent]; [converted] and [opened] are what the converter and
    [fitz.open] answer if they are asked. *)
Definition dropEvent (mimeData : MimeData) (converted : bool)
    (opened : result Document) (self : DocumentExtractorApp)
  : DocumentExtractorApp * list effect :=
  match urls mimeData with
  | [] => (self, [])
  | file_path :: _ =>
      if endswith (lower file_path) ".pdf" then
        load_pdf (path_of file_path) opened self
      else if endswith_any (lower file_path) [".doc"; ".docx"] then
        convert_doc_to_pdf (path_of file_path) converted opened self
      else (self, [])
  end.

(** [max(xs)] of a list of integers; the built-in raises on an empty one. *)
Definition max_ (xs : list Z) : result Z :=
  match xs with
  | [] => Raise ValueError
  | x :: xs => Return (fold_left Z.max xs x)
  end.

(** [sum(xs)] *)
Definition sum (xs : list Z) : Z := fold_left Z.add xs 0.

(** [Image.new("RGB", (w, h))] *)
Definition Image_new (w h : Z) : Canvas :=
  {| canvas_width := w; canvas_height := h; pasted := [] |}.

(** [combined.paste(img, box)] *)
Definition paste (img : Image) (box : Z * Z) (combined : Canvas) : Canvas :=
  {| canvas_width := canvas_width combined; canvas_height := canvas_height combined;
     pasted := pasted combined ++ [(img, box)] |}.

(** [pdf_doc[page_num].get_pixmap()] turned into an image. *)
Definition rasterize (d : Document) (page_num : nat) : result Image :=
  page ← getitem d page_num; raster page.

(** [f"page_{page_num + 1}.png"] *)
Definition page_filename (page_num : nat) : string :=
  "page_" +:+ pretty (page_num + 1)%nat +:+ ".png".

Section Handlers.
Variable max_str_digits : nat.

(** The selecting loop of [select_pages]. *)
Fixpoint select_each (pages : list Z) (w : ThumbnailListWidget) : ThumbnailListWidget :=
  match pages with
  | [] => w
  | page_num :: pages =>
      select_each pages
        (if (0 <=? page_num - 1) && (page_num - 1 <? Z.of_nat (count w))
         then setSelected (Z.to_nat (page_num - 1)) w
         else w)
  end.

Definition select_pages (self : DocumentExtractorApp)
  : DocumentExtractorApp * list effect :=
  match truthy (pdf_doc self) with
  | None => (self, [show_error No_document_loaded])
  | Some d =>
      match strip (range_input self) with
      | EmptyString => (self, [show_error Please_enter_a_page_range])
      | range_text =>
          catch_Exception
            (let total_pages := Z.of_nat (len d) in
             pages ← parse_page_range max_str_digits range_text total_pages;
             match pages with
             | [] => Return (self, [show_error No_valid_pages_in_the_specified_range])
             | _ =>
                 let w := select_each pages (clearSelection (page_list self)) in
                 Return (showMessage (Selected_pages (length pages))
                           (set_page_list w self), [])
             end)
            (fun e => (self, [show_error (Invalid_page_range e)]))
      end
  end.

(** [browse_folder]; [folder] is what the dialog answers, empty when the
    user cancels. *)
Definition browse_folder (folder : string) (self : DocumentExtractorApp)
  : DocumentExtractorApp :=
  match folder with
  | EmptyString => self
  | _ =>
      {| pdf_doc := pdf_doc self; current_file := current_file self;
         page_list := page_list self; range_input := range_input self;
         folder_path := folder; status_bar := status_bar self |}
  end.

(** The folder the two image exports write to. *)
Definition output_folder (env : Env) (self : DocumentExtractorApp) : path :=
  match strip (folder_path self) with
  | EmptyString => join (getcwd env) "extracted_images"
  | folder => path_of folder
  end.

(** [if not os.path.exists(output_folder): os.makedirs(output_folder)] *)
Definition ensure_folder (env : Env) (folder : path) : result (list effect) :=
  if exists_ env folder then Return []
  else _ ← makedirs env folder; Return [os_makedirs folder].

(** The rasterising loop of [extract_pages]: [images] grows by the pages
    that rasterise, a page that fails is reported and left out. *)
Fixpoint collect_images (d : Document) (page_nums : list nat)
    (images : list Image) (out : list effect) : list Image * list effect :=
  match page_nums with
  | [] => (images, out)
  | page_num :: page_nums =>
      match rasterize d page_num with
      | Return img => collect_images d page_nums (images ++ [img]) out
      | Raise _ =>
          collect_images d page_nums images
            (out ++ [print (Error_processing_page (page_num + 1))])
      end
  end.

(** The pasting loop of [extract_pages]. *)
Fixpoint paste_each (images : list Image) (y_offset : Z) (combined : Canvas) : Canvas :=
  match images with
  | [] => combined
  | img :: images =>
      paste_each images (y_offset + height img) (paste img (0, y_offset) combined)
  end.

Definition extract_pages (env : Env) (self : DocumentExtractorApp)
  : DocumentExtractorApp * list effect :=
  match truthy (pdf_doc self) with
  | None => (self, [show_error No_document_loaded])
  | Some d =>
      match selectedItems (page_list self) with
      | [] => (self, [show_error No_pages_selected])
      | selected_items =>
          let output_folder := output_folder env self in
          match ensure_folder env output_folder with
          | Raise e => (self, [show_error (Error_during_extraction e)])
          | Return made =>
              let page_nums := map row selected_items in
              let '(images, out) := collect_images d page_nums [] made in
              match images with
              | [] => (self, out ++ [show_error No_valid_pages_to_extract])
              | _ =>
                  let composed :=
                    max_width ← max_ (map width images);
                    let total_height := sum (map height images) in
                    let combined := paste_each images 0 (Image_new max_width total_height) in
                    let output_path := join output_folder "merged_pages.png" in
                    _ ← save env output_path;
                    Return (output_path, combined) in
                  match composed with
                  | Return (output_path, combined) =>
                      (showMessage Extraction_complete self,
                       out ++ [save_canvas output_path combined;
                               show_success (Saved_combined_image_to output_path)])
                  | Raise e => (self, out ++ [show_error (Error_during_extraction e)])
                  end
              end
          end
      end
  end.

(** The loop of [extract_separate_pages]. *)
Fixpoint save_each (env : Env) (d : Document) (output_folder : path)
    (page_nums : list nat) (success_count : nat) (out : list effect)
  : nat * list effect :=
  match page_nums with
  | [] => (success_count, out)
  | page_num :: page_nums =>
      let file := join output_folder (page_filename page_num) in
      match img ← rasterize d page_num; _ ← save env file; Return img with
      | Return img =>
          save_each env d output_folder page_nums (success_count + 1)
            (out ++ [save_image file img])
      | Raise _ =>
          save_each env d output_folder page_nums success_count
            (out ++ [print (Error_extracting_page (page_num + 1))])
      end
  end.

Definition extract_separate_pages (env : Env) (self : DocumentExtractorApp)
  : DocumentExtractorApp * list effect :=
  match truthy (pdf_doc self) with
  | None => (self, [show_error No_document_loaded])
  | Some d =>
      match selectedItems (page_list self) with
      | [] => (self, [show_error No_pages_selected])
      | selected_items =>
          let output_folder := output_folder env self in
          match ensure_folder env output_folder with
          | Raise e => (self, [show_error (Error_during_extraction e)])
          | Return made =>
              let page_nums := map row selected_items in
              let '(success_count, out) :=
                save_each env d output_folder page_nums 0 made in
              if (0 <? success_count)%nat then
                (showMessage (Extracted_pages success_count) self,
                 out ++ [show_success (Extracted_pages_to success_count output_folder)])
              else (self, out ++ [show_error Failed_to_extract_any_pages])
          end
      end
  end.

(** The loop of [extract_as_pdf]: [insert_pdf] with [from_page] and
    [to_page] both at the row of the item appends one page of the source,
    the page at that row; the engine brings both bounds back to the last
    page when they lie past it, so a row past the end appends the last
    page. [extract_as_pdf] calls the loop on a document with pages only. *)
Fixpoint insert_each (d : Document) (selected_items : list nat)
    (new_pdf : list Page) : result (list Page) :=
  match selected_items with
  | [] => Return new_pdf
  | item :: selected_items =>
      let page_num := row item in
      page ← getitem d (Nat.min page_num (len d - 1));
      insert_each d selected_items (new_pdf ++ [page])
  end.

(** [extract_as_pdf]; [chosen] is what the save dialog answers, empty when
    the user cancels. *)
Definition extract_as_pdf (env : Env) (chosen : string)
    (self : DocumentExtractorApp) : DocumentExtractorApp * list effect :=
  match truthy (pdf_doc self) with
  | None => (self, [show_error No_document_loaded])
  | Some d =>
      match selectedItems (page_list self) with
      | [] => (self, [show_error No_pages_selected])
      | selected_items =>
          match chosen with
          | EmptyString => (self, [])
          | _ =>
              let file := path_of chosen in
              match new_pdf ← insert_each d selected_items [];
                    _ ← save env file; Return new_pdf with
              | Return new_pdf =>
                  (showMessage PDF_saved_successfully self,
                   [save_pdf file new_pdf; show_success (PDF_saved_to file)])
              | Raise e => (self, [show_error (PDF_save_failed e)])
              end
          end
      end
  end.

(** ** Sessions *)

(** What the user and the environment can do to the window. *)
Inductive action : Type :=
  | Load_pdf (file_path : path) (opened : result Document)
  | Convert_doc (doc_path : path) (converted : bool) (opened : result Document)
  | Type_range (range_text : string)
  | Type_folder (folder : string)
  | Browse_folder (folder : string)
  | Click_item (r : nat)
  | Select_pages
  | Extract_pages (env : Env)
  | Extract_separate_pages (env : Env)
  | Extract_as_pdf (env : Env) (chosen : string).

Definition step (a : action) (self : DocumentExtractorApp)
  : DocumentExtractorApp * list effect :=
  match a with
  | Load_pdf file_path opened => load_pdf file_path opened self
  | Convert_doc doc_path converted opened =>
      convert_doc_to_pdf doc_path converted opened self
  | Type_range range_text =>
      ({| pdf_doc := pdf_doc self; current_file := current_file self;
          page_list := page_list self; range_input := range_text;
          folder_path := folder_path self; status_bar := status_bar self |}, [])
  | Type_folder folder =>
      ({| pdf_doc := pdf_doc self; current_file := current_file self;
          page_list := page_list self; range_input := range_input self;
          folder_path := folder; status_bar := status_bar self |}, [])
  | Browse_folder folder => (browse_folder folder self, [])
  | Click_item r => (set_page_list (click r (page_list self)) self, [])
  | Select_pages => select_pages self
  | Extract_pages env => extract_pages env self
  | Extract_separate_pages env => extract_separate_pages env self
  | Extract_as_pdf env chosen => extract_as_pdf env chosen self
  end.

(** The window after a session, and everything the session put out. *)
Fixpoint run (session : list action) (self : DocumentExtractorApp)
  : DocumentExtractorApp * list effect :=
  match session with
  | [] => (self, [])
  | a :: session =>
      let '(self, out) := step a self in
      let '(self, out') := run session self in
      (self, out ++ out')
  end.
End Handlers.

(** [selected_offsets]: the rows the exports read off the widget,
    [[self.page_list.row(item) for item in selected_items]]. *)
Definition selected_offsets (self : DocumentExtractorApp) : list nat :=
  map row (selectedItems (page_list self)).

(** * Vocabulary of the statements *)

(** The rows the selecting loop marks for an ascending list of pages. *)
Definition marked_rows (n : nat) (pages : list Z) : list nat :=
  (fun p => Z.to_nat (p - 1)) <$> filter (fun p => p <= Z.of_nat n) pages.

(** The selected rows are rows of the list, and the list has no more items
    than the loaded document has pages. *)
Definition consistent (self : DocumentExtractorApp) : Prop :=
  Forall (fun r => (r < count (page_list self))%nat) (selection (page_list self))
  /\ forall d, pdf_doc self = Some d -> (count (page_list self) <= len d)%nat.

(** The images of the pages of [page_nums] that rasterise, in the order of
    [page_nums]. *)
Definition rasterized (d : Document) (page_nums : list nat) : list Image :=
  omap (fun n => match rasterize d n with Return img => Some img | Raise _ => None end)
       page_nums.

(** The pages of [page_nums] that rasterise and whose file can be written,
    with their images, in the order of [page_nums]. *)
Definition extracted (env : Env) (d : Document) (folder : path) (page_nums : list nat)
  : list (nat * Image) :=
  omap (fun n =>
          match rasterize d n, save env (join folder (page_filename n)) with
          | Return img, Return _ => Some (n, img)
          | _, _ => None
          end) page_nums.

(** The image files, merged images and PDF files among the effects. *)
Definition images_saved (out : list effect) : list (path * Image) :=
  omap (fun e => match e with save_image file img => Some (file, img) | _ => None end) out.

Definition canvases_saved (out : list effect) : list (path * Canvas) :=
  omap (fun e => match e with save_canvas file c => Some (file, c) | _ => None end) out.

Definition pdfs_saved (out : list effect) : list (path * list Page) :=
  omap (fun e => match e with save_pdf file new_pdf => Some (file, new_pdf) | _ => None end)
       out.

(** Sum from the right, to state sums independently of [sum]. *)
Definition total (xs : list Z) : Z := foldr Z.add 0 xs.

(** The pages of [d] at the offsets [offsets], in their order. *)
Definition pages_at (d : Document) (offsets : list nat) : list Page :=
  omap (fun n => pages d !! n) offsets.

(** Whether the thumbnail of page [page_num] renders in [load_pages]. *)
Definition renders (d : Document) (page_num : nat) : bool :=
  match page ← getitem d page_num; thumbnail page with
  | Return _ => true
  | Raise _ => false
  end.

(** The page numbers kept in the items of a list. *)
Definition page_nums_of (w : ThumbnailListWidget) : list nat :=
  (fun item => (user_data item).1) <$> items w.

(** The messages printed among the effects. *)
Definition printed (out : list effect) : list message :=
  omap (fun e => match e with print m => Some m | _ => None end) out.

(** A text of white space and commas only. *)
Fixpoint blank (s : string) : bool :=
  match s with
  | String c r => (isspace c || Ascii.eqb c ",") && blank r
  | EmptyString => true
  end.

(** A part with two dashes or more: it splits into more than two pieces. *)
Definition two_dashes (part : string) : Prop :=
  (2 < length (split "-" (strip part)))%nat.

(** An item shows a page of [d]: it is labelled with the page's number
    and carries the page's thumbnail. *)
Definition shows (d : Document) (item : Item) : Prop :=
  text item = "Page " +:+ pretty ((user_data item).1 + 1)%nat
  /\ (page ← getitem d (user_data item).1; thumbnail page) = Return (user_data item).2.

(** No row is selected twice, the items stand in the order of their pages,
    and they show pages of the loaded document. *)
Definition well_formed (self : DocumentExtractorApp) : Prop :=
  NoDup (selection (page_list self))
  /\ StronglySorted lt (page_nums_of (page_list self))
  /\ forall d, pdf_doc self = Some d -> Forall (shows d) (items (page_list self)).

(** Two windows that differ in the status bar at most. *)
Definition same_but_status (self self' : DocumentExtractorApp) : Prop :=
  pdf_doc self' = pdf_doc self /\ current_file self' = current_file self
  /\ page_list self' = page_list self /\ range_input self' = range_input self
  /\ folder_path self' = folder_path self.

(** A file the window takes: its name ends, in any letter case, in [.pdf],
    [.doc] or [.docx]. *)
Definition is_document (url : string) : bool :=
  endswith_any (lower url) [".pdf"; ".doc"; ".docx"].

(** ** Sample data *)

Module Sample.

Definition page (w h : Z) : Page :=
  {| thumbnail := Return {| pix_width := w; pix_height := h; pix_stride := 3 * w;
                            pix_samples := [] |};
     raster := Return {| width := 4 * w; height := 4 * h; data := [] |} |}.

(** A page that shows in the list but does not rasterise at full size. *)
Definition broken_page : Page :=
  {| thumbnail := Return {| pix_width := 1; pix_height := 1; pix_stride := 3;
                            pix_samples := [] |};
     raster := Raise OtherException |}.

Definition three_pages : Document := {| pages := [page 10 20; page 30 5; page 7 7] |}.

Definition middle_broken : Document := {| pages := [page 10 20; broken_page; page 7 7] |}.

Definition one_page : Document := {| pages := [page 10 20] |}.

Definition env : Env :=
  {| getcwd := path_of "/home/user"; exists_ := fun _ => true;
     makedirs := fun _ => Return tt; save := fun _ => Return tt |}.

(** The third page clicked first, then the first page. *)
Definition clicked_3_then_1 : DocumentExtractorApp :=
  (run 4300 [Load_pdf (path_of "a.pdf") (Return three_pages);
             Click_item 2%nat; Click_item 0%nat] init).1.

Definition clicked_all_middle_broken : DocumentExtractorApp :=
  (run 4300 [Load_pdf (path_of "b.pdf") (Return middle_broken);
             Click_item 0%nat; Click_item 1%nat; Click_item 2%nat] init).1.

(** Pages 3 and 1 clicked, then a range without any valid page entered. *)
Definition entered_0_11 : DocumentExtractorApp :=
  (step 4300 (Type_range "0,11") clicked_3_then_1).1.

(** Page 2 clicked, then the range ["3,1"] entered. *)
Definition entered_3_1 : DocumentExtractorApp :=
  (run 4300 [Load_pdf (path_of "a.pdf") (Return three_pages);
             Click_item 1%nat; Type_range "3,1"] init).1.

(** A page without thumbnail. *)
Definition unrendered_page : Page :=
  {| thumbnail := Raise OtherException;
     raster := Return {| width := 4; height := 4; data := [] |} |}.

Definition middle_unrendered : Document :=
  {| pages := [page 10 20; unrendered_page; page 7 7] |}.

(** Three pages of which the list shows two; page 1 clicked, then the range
    ["3"] entered. *)
Definition entered_3_middle_unrendered : DocumentExtractorApp :=
  (run 4300 [Load_pdf (path_of "c.pdf") (Return middle_unrendered);
             Click_item 0%nat; Type_range "3"] init).1.

(** The first two pages selected by range. *)
Definition selected_1_2 : DocumentExtractorApp :=
  (run 4300 [Load_pdf (path_of "a.pdf") (Return three_pages);
             Type_range "1-2"; Select_pages] init).1.

Definition folder : path := join (path_of "/home/user") "extracted_images".

End Sample.

(** * Properties *)

(** ** Strings and [sorted] *)

Lemma split_without_separator sep s : contains sep s = false -> split sep s = [s].
Proof.
  induction s as [|c r IH]; simpl; [done|].
  destruct (Ascii.eqb c sep); [done|].
  intros Hr. by rewrite (IH Hr).
Qed.

Lemma split_length sep s : (1 <= length (split sep s))%nat.
Proof.
  induction s as [|c r IH]; simpl; [lia|].
  destruct (Ascii.eqb c sep); simpl; [lia|].
  destruct (split sep r); simpl; lia.
Qed.

Lemma contains_split_length sep s :
  contains sep s = true -> (2 <= length (split sep s))%nat.
Proof.
  induction s as [|c r IH]; simpl; [done|].
  destruct (Ascii.eqb c sep); simpl.
  - intros _. pose proof (split_length sep r). lia.
  - intros Hr. specialize (IH Hr). destruct (split sep r); simpl in *; lia.
Qed.


Lemma sorted_Permutation pages : sorted pages ≡ₚ elements pages.
Proof. apply merge_sort_Permutation. Qed.

Lemma elem_of_sorted pages p : p ∈ sorted pages <-> p ∈ pages.
Proof. by rewrite sorted_Permutation, elem_of_elements. Qed.

Lemma NoDup_sorted pages : NoDup (sorted pages).
Proof. rewrite sorted_Permutation. apply NoDup_elements. Qed.

Lemma StronglySorted_sorted pages : StronglySorted Z.le (sorted pages).
Proof. apply Sorted_StronglySorted; [apply _|]. apply Sorted_merge_sort, _. Qed.

(** A list in non-decreasing order that repeats nothing is increasing. *)
Lemma StronglySorted_le_NoDup_lt (l : list Z) :
  StronglySorted Z.le l -> NoDup l -> StronglySorted Z.lt l.
Proof.
  induction 1 as [|x l Hl IH Hx]; intros Hnd; [constructor|].
  apply NoDup_cons in Hnd as [Hnot Hnd]. constructor; [by apply IH|].
  rewrite Forall_forall in Hx |- *. intros y Hy.
  assert (x <> y) by (intros ->; done). specialize (Hx y Hy). lia.
Qed.

Lemma sorted_ascending pages : StronglySorted Z.lt (sorted pages).
Proof.
  apply StronglySorted_le_NoDup_lt; [apply StronglySorted_sorted|apply NoDup_sorted].
Qed.

Lemma sorted_empty : sorted ∅ = [].
Proof. unfold sorted. by rewrite elements_empty. Qed.



(** ** The range parser *)

Section ParserFacts.
Variable max_str_digits : nat.


(** [int] raises nothing but [ValueError]. *)
Lemma int_raises s e : int max_str_digits s = Raise e -> e = ValueError.
Proof.
  unfold Py.int.
  repeat match goal with
         | |- context [match ?x with _ => _ end] => destruct x
         | |- context [if ?b then _ else _] => destruct b
         end; congruence.
Qed.

(** One round of the loop adds pages between 1 and [total_pages] only. *)
Lemma parse_part_bounds total_pages pages part pages' :
  parse_part max_str_digits total_pages pages part = Return pages' ->
  forall p, p ∈ pages' -> p ∈ pages \/ 1 <= p <= total_pages.
Proof.
  unfold parse_part. destruct (strip part) as [|c r] eqn:Hstrip.
  { intros [= <-]; auto. }
  destruct (contains _ _).
  - destruct (split _ _) as [|a [|b [|]]]; try discriminate.
    destruct (int max_str_digits (strip a)) as [A|[]]; simpl; try discriminate;
      [|intros [= <-]; auto].
    destruct (int max_str_digits (strip b)) as [B|[]]; simpl; try discriminate;
      [|intros [= <-]; auto].
    destruct ((A >? B) || (A <? 1) || (B >? total_pages)) eqn:Hc; simpl;
      intros [= <-]; auto.
    intros p. rewrite elem_of_union, elem_of_list_to_set.
    unfold range. rewrite elem_of_seqZ. intros [?|?]; [auto|]. lia.
  - destruct (int max_str_digits _) as [page|[]]; simpl; try discriminate;
      [|intros [= <-]; auto].
    destruct ((1 <=? page) && (page <=? total_pages)) eqn:Hc; simpl;
      intros [= <-]; auto.
    intros p. rewrite elem_of_union, elem_of_singleton. intros [?| ->]; [auto|]. lia.
Qed.

Lemma parse_parts_bounds total_pages parts : forall pages pages',
  parse_parts max_str_digits total_pages pages parts = Return pages' ->
  forall p, p ∈ pages' -> p ∈ pages \/ 1 <= p <= total_pages.
Proof.
  induction parts as [|part parts IH]; simpl; intros pages pages'.
  { intros [= <-]; auto. }
  destruct (parse_part max_str_digits total_pages pages part) as [pages1|] eqn:Hpart;
    simpl; [|discriminate].
  intros Hrest p Hp. destruct (IH _ _ Hrest p Hp) as [?|?]; [|auto].
  eauto using parse_part_bounds.
Qed.

(** What leaves the loop is a [ValueError], and it comes from a part with
    more than one dash: [start, end = part.split('-')] stands before the
    [try]. *)
Lemma parse_part_raises total_pages pages part e :
  parse_part max_str_digits total_pages pages part = Raise e ->
  e = ValueError /\ (2 < length (split "-" (strip part)))%nat.
Proof.
  unfold parse_part. destruct (strip part) as [|c r] eqn:Hstrip;
    [discriminate|].
  destruct (contains _ _) eqn:Hdash.
  - pose proof (contains_split_length _ _ Hdash) as Hlen.
    destruct (split _ _) as [|a [|b [|]]] eqn:Hsplit; simpl in Hlen; try lia.
    + destruct (int max_str_digits (strip a)) as [A|e1] eqn:Ha; simpl.
      * destruct (int max_str_digits (strip b)) as [B|e2] eqn:Hb; simpl.
        -- destruct (_ || _); discriminate.
        -- rewrite (int_raises _ _ Hb). discriminate.
      * rewrite (int_raises _ _ Ha). discriminate.
    + intros [= <-]. simpl. split; [done|lia].
  - destruct (int max_str_digits _) as [page|e1] eqn:Hp; simpl.
    + destruct (_ && _); discriminate.
    + rewrite (int_raises _ _ Hp). discriminate.
Qed.

(** With at most one dash in every part the parser returns a list. *)
Lemma parse_page_range_returns range_text total_pages :
  Forall (fun part => (length (split "-" (strip part)) <= 2)%nat)
         (split "," range_text) ->
  exists pages, parse_page_range max_str_digits range_text total_pages = Return pages.
Proof.
  unfold parse_page_range. generalize (∅ : gset Z).
  induction (split "," range_text) as [|part parts IH]; simpl; intros acc Hall.
  { eauto. }
  apply Forall_cons in Hall as [Hpart Hparts].
  destruct (parse_part max_str_digits total_pages acc part) as [acc'|e] eqn:Hp; simpl.
  - by apply IH.
  - apply parse_part_raises in Hp as [_ ?]. lia.
Qed.
End ParserFacts.

(** C1, as the code has it: on the text of its own docstring, ["1,3-5,7"],
    with ten pages, [parse_page_range] returns the pages 1, 3, 4, 5 and 7:
    the span [3-5] ends at 5 and nothing brings in page 6. This holds
    whatever the interpreter's limit on the digits of an integer literal. *)
Theorem parse_page_range_docstring_text max_str_digits :
  parse_page_range max_str_digits "1,3-5,7" 10 = Return [1; 3; 4; 5; 7].
Proof. vm_compute. reflexivity. Qed.

(** C1, as the specification words it, fails: the returned list is not
    [1, 3, 4, 5, 6, 7]. *)
Lemma parse_page_range_docstring_text_without_6 :
  parse_page_range 4300 "1,3-5,7" 10 <> Return [1; 3; 4; 5; 6; 7].
Proof. vm_compute. discriminate. Qed.

(** C2, at the input that breaks it: a part with two dashes, ["1-2-3"], is
    split into three pieces, the unpacking [start, end = ...] raises
    [ValueError] before the [try] that would have dropped the part, and the
    error leaves [parse_page_range]. The non-numeric part of ["abc,2"] is
    dropped and the valid one kept, as the claim says. *)
Theorem parse_page_range_two_dashes_raise max_str_digits :
  parse_page_range max_str_digits "1-2-3" 10 = Raise ValueError
  /\ parse_page_range max_str_digits "abc,2" 10 = Return [2].
Proof. split; vm_compute; reflexivity. Qed.

Section RangeClaims.
Variable max_str_digits : nat.



(** C5. Whenever [parse_page_range] returns a list, the list is strictly
    ascending, repeats no page, and holds only pages between 1 and
    [total_pages]. *)
Theorem parse_page_range_ascending range_text total_pages pages :
  parse_page_range max_str_digits range_text total_pages = Return pages ->
  StronglySorted Z.lt pages /\ NoDup pages /\
  Forall (fun p => 1 <= p <= total_pages) pages.
Proof.
  unfold parse_page_range.
  destruct (parse_parts max_str_digits _ _ _) as [found|] eqn:Hparts; simpl; [|discriminate].
  intros [= <-]. split; [apply sorted_ascending|]. split; [apply NoDup_sorted|].
  apply Forall_forall. intros p Hp. apply elem_of_sorted in Hp.
  destruct (parse_parts_bounds _ _ _ _ _ Hparts p Hp) as [Hin|?]; [|done].
  by apply not_elem_of_empty in Hin.
Qed.
End RangeClaims.


Lemma parse_page_range_ascending_witness :
  StronglySorted Z.lt [1; 3; 4] /\ NoDup [1; 3; 4] /\
  Forall (fun p => 1 <= p <= 10) [1; 3; 4].
Proof.
  apply (parse_page_range_ascending 4300 "3-4,1,3,0,11" 10).
  vm_compute. reflexivity.
Defined.

(** ** The thumbnail list and the selection *)

Lemma elem_of_remove_row r r' rows : r' ∈ remove_row r rows <-> r' <> r /\ r' ∈ rows.
Proof. unfold remove_row. by rewrite list_elem_of_filter. Qed.

Lemma remove_row_fresh r rows : r ∉ rows -> remove_row r rows = rows.
Proof.
  unfold remove_row. induction rows as [|r' rows IH]; [done|].
  rewrite not_elem_of_cons. intros [Hne Hnot].
  rewrite filter_cons_True by done. by rewrite IH.
Qed.

Lemma elem_of_setSelected r r' w :
  r' ∈ selection (setSelected r w) <-> r' ∈ selection w \/ r' = r.
Proof.
  simpl. rewrite elem_of_app, elem_of_remove_row, list_elem_of_singleton.
  destruct (decide (r' = r)); intuition.
Qed.

Lemma count_select_each pages : forall w, count (select_each pages w) = count w.
Proof.
  induction pages as [|p pages IH]; intros w; simpl; [done|].
  rewrite IH. by destruct (_ && _).
Qed.

(** The selecting loop marks the rows of the pages of its input that lie
    within the list, whatever the order of the input, and leaves the rows
    that were selected before. *)
Lemma elem_of_select_each pages : forall w (r : nat),
  r ∈ selection (select_each pages w) <->
  r ∈ selection w \/ (r < count w)%nat /\ Z.of_nat r + 1 ∈ pages.
Proof.
  induction pages as [|p pages IH]; intros w r; simpl.
  { rewrite elem_of_nil. intuition. }
  rewrite IH, elem_of_cons. destruct (_ && _) eqn:Hc.
  - rewrite elem_of_setSelected. change (count (setSelected _ w)) with (count w).
    apply andb_true_iff in Hc as [H0 Hlt].
    split; [intros [[?| ->]|[? ?]]|intros [?|[? [?|?]]]]; auto; try lia.
  - apply andb_false_iff in Hc.
    split; [intros [?|[? ?]]|intros [?|[? [?|?]]]]; auto. lia.
Qed.

Lemma marked_rows_ascending n pages :
  StronglySorted Z.lt pages -> Forall (fun p => 1 <= p) pages ->
  StronglySorted lt (marked_rows n pages).
Proof.
  unfold marked_rows. induction 1 as [|p pages Hs IH Hp]; intros Hpos.
  { constructor. }
  apply Forall_cons in Hpos as [Hp1 Hpos]. specialize (IH Hpos).
  rewrite filter_cons. case_decide; [|done].
  rewrite fmap_cons. constructor; [done|].
  apply Forall_fmap, Forall_forall. intros q Hq.
  apply list_elem_of_filter in Hq as [_ Hq].
  rewrite Forall_forall in Hp, Hpos. specialize (Hp q Hq). specialize (Hpos q Hq).
  simpl. lia.
Qed.

Lemma select_each_ascending pages : forall w,
  StronglySorted Z.lt pages -> Forall (fun p => 1 <= p) pages ->
  (forall (r : nat) p, r ∈ selection w -> p ∈ pages -> Z.of_nat r < p - 1) ->
  selection (select_each pages w) = selection w ++ marked_rows (count w) pages.
Proof.
  unfold marked_rows.
  induction pages as [|p pages IH]; intros w Hs Hpos Hbelow; simpl.
  { by rewrite (right_id_L [] (++)). }
  apply StronglySorted_cons in Hs as [Hp Hs].
  apply Forall_cons in Hpos as [Hp1 Hpos].
  rewrite Forall_forall in Hp.
  rewrite filter_cons. destruct (_ && _) eqn:Hc.
  - apply andb_true_iff in Hc as [_ Hlt]. rewrite decide_True by lia.
    rewrite IH; [|done|done|].
    + change (count (setSelected _ w)) with (count w). simpl.
      rewrite remove_row_fresh, <- (assoc_L (++)); [done|].
      intros Hin. specialize (Hbelow _ p Hin). rewrite elem_of_cons in Hbelow. lia.
    + intros r q Hr Hq. apply elem_of_setSelected in Hr as [Hr| ->].
      * apply (Hbelow r q Hr). by right.
      * specialize (Hp q Hq). lia.
  - apply andb_false_iff in Hc. rewrite decide_False by lia.
    apply IH; [done|done|]. intros r q Hr Hq. apply (Hbelow r q Hr). by right.
Qed.

Lemma load_page_selection d page_num st :
  selection (load_page d page_num st).1 = selection st.1
  /\ (count st.1 <= count (load_page d page_num st).1 <= S (count st.1))%nat.
Proof.
  destruct st as [w out]. unfold load_page.
  destruct (_ ≫= _); simpl; (split; [done|]); [|lia].
  unfold count, addItem. simpl. rewrite length_app. simpl. lia.
Qed.

Lemma load_each_selection d page_nums : forall st,
  let st' := fold_left (fun st page_num => load_page d page_num st) page_nums st in
  selection st'.1 = selection st.1
  /\ (count st'.1 <= count st.1 + length page_nums)%nat.
Proof.
  induction page_nums as [|n page_nums IH]; intros st; simpl.
  { split; [done|lia]. }
  destruct (IH (load_page d n st)) as [Hs Hc]. simpl in Hs, Hc.
  destruct (load_page_selection d n st) as [Hs' ?].
  split; [congruence|lia].
Qed.

(** [load_pages] leaves a list without selection, and with no more items
    than the document has pages. *)
Lemma load_pages_fresh pdf_doc w :
  selection (load_pages pdf_doc w).1 = []
  /\ forall d, pdf_doc = Some d -> (count (load_pages pdf_doc w).1 <= len d)%nat.
Proof.
  unfold load_pages. destruct (truthy pdf_doc) as [d'|] eqn:Ht.
  - pose proof (load_each_selection d' (seq 0 (len d')) (clear w, [])) as [Hs Hc].
    simpl in Hs, Hc. destruct (fold_left _ _ _) as [w' out]. simpl in *.
    split; [done|]. intros d ->. unfold truthy in Ht. case_match; [done|].
    injection Ht as ->. rewrite length_seq in Hc. unfold count in *. simpl. lia.
  - simpl. split; [done|]. unfold count. simpl. intros; lia.
Qed.

(** ** Selecting by range *)

Lemma selected_offsets_selection self : selected_offsets self = selection (page_list self).
Proof. unfold selected_offsets, selectedItems. apply map_id. Qed.

Section SelectionClaims.
Variable max_str_digits : nat.

(** C10. With a document loaded and a range entered, when the range parses
    to no page at all [select_pages] shows the error and hands back the
    window as it was: the pages selected before are still selected. *)
Theorem select_pages_nothing_valid self d :
  truthy (pdf_doc self) = Some d ->
  strip (range_input self) <> EmptyString ->
  parse_page_range max_str_digits (strip (range_input self)) (Z.of_nat (len d))
    = Return [] ->
  select_pages max_str_digits self
    = (self, [show_error No_valid_pages_in_the_specified_range])
  /\ selected_offsets (select_pages max_str_digits self).1 = selected_offsets self.
Proof.
  intros Hd Htext Hparse.
  assert (select_pages max_str_digits self
          = (self, [show_error No_valid_pages_in_the_specified_range])) as ->; [|done].
  unfold select_pages. rewrite Hd.
  destruct (strip (range_input self)) as [|c r]; [done|].
  by rewrite Hparse.
Qed.

(** C6, as the code has it. With a document loaded and a range entered
    that parses to the pages [pages]:
    - when [pages] is empty, [select_pages] shows the error and keeps the
      selection there was, the window being returned as it was;
    - when [pages] is not empty, [select_pages] drops the selection there
      was and selects the rows [p - 1] of the parsed pages [p] that have a
      row in the list, that is [p <= count()], the number of thumbnails,
      and ignores the others without error; these are all the parsed pages
      when the list holds an item for every page of the document. The rows
      read back are ascending whatever the order in which the range names
      the pages, since the parser hands the pages over sorted.
    The selecting loop itself, on any list of page numbers in any order,
    marks the rows of the pages within the list and no other. *)
Theorem select_pages_selects self d pages :
  truthy (pdf_doc self) = Some d ->
  strip (range_input self) <> EmptyString ->
  parse_page_range max_str_digits (strip (range_input self)) (Z.of_nat (len d))
    = Return pages ->
  (pages = [] ->
   select_pages max_str_digits self
   = (self, [show_error No_valid_pages_in_the_specified_range]))
  /\ (pages <> [] ->
      selected_offsets (select_pages max_str_digits self).1
        = marked_rows (count (page_list self)) pages
      /\ StronglySorted lt (selected_offsets (select_pages max_str_digits self).1)
      /\ (forall r : nat, r ∈ selected_offsets (select_pages max_str_digits self).1 <->
            (r < count (page_list self))%nat /\ Z.of_nat r + 1 ∈ pages)
      /\ (count (page_list self) = len d ->
          selected_offsets (select_pages max_str_digits self).1
            = (fun p => Z.to_nat (p - 1)) <$> pages)
      /\ (forall (input : list Z) (r : nat),
            r ∈ selection (select_each input (clearSelection (page_list self))) <->
            (r < count (page_list self))%nat /\ Z.of_nat r + 1 ∈ input)).
Proof.
  intros Hd Htext Hparse. split.
  { intros ->. unfold select_pages. rewrite Hd.
    destruct (strip (range_input self)) as [|c r]; [done|]. by rewrite Hparse. }
  intros Hpages.
  assert (Hsorted : StronglySorted Z.lt pages
                    /\ Forall (fun p => 1 <= p <= Z.of_nat (len d)) pages).
  { unfold parse_page_range in Hparse.
    destruct (parse_parts _ _ _ _) as [found|] eqn:Hparts; simpl in Hparse; [|done].
    injection Hparse as <-. split; [apply sorted_ascending|].
    apply Forall_forall. intros p Hp%elem_of_sorted.
    destruct (parse_parts_bounds _ _ _ _ _ Hparts p Hp) as [Hin|?]; [|done].
    by apply not_elem_of_empty in Hin. }
  destruct Hsorted as [Hsorted Hbounds].
  assert (Hpos : Forall (fun p => 1 <= p) pages).
  { eapply Forall_impl; [exact Hbounds|]. simpl. lia. }
  assert (Hsel : selected_offsets (select_pages max_str_digits self).1
                 = marked_rows (count (page_list self)) pages).
  { rewrite selected_offsets_selection. unfold select_pages. rewrite Hd.
    destruct (strip (range_input self)) as [|c r]; [done|].
    rewrite Hparse. simpl. destruct pages as [|p pages']; [done|].
    cbn [catch_Exception fst page_list showMessage set_page_list].
    rewrite select_each_ascending; [done|done|done|].
    intros r0 q Hr0. simpl in Hr0. by apply elem_of_nil in Hr0. }
  assert (Hloop : forall (input : list Z) (r : nat),
        r ∈ selection (select_each input (clearSelection (page_list self))) <->
        (r < count (page_list self))%nat /\ Z.of_nat r + 1 ∈ input).
  { intros input r. rewrite elem_of_select_each. simpl. rewrite elem_of_nil.
    change (count (clearSelection (page_list self))) with (count (page_list self)).
    intuition. }
  rewrite Hsel. split; [done|]. split; [by apply marked_rows_ascending|].
  split; [|split; [|done]].
  - intros r. unfold marked_rows. rewrite list_elem_of_fmap. split.
    + intros (p & -> & Hp). apply list_elem_of_filter in Hp as [Hle Hp].
      rewrite Forall_forall in Hpos. specialize (Hpos p Hp).
      split; [lia|]. by replace (Z.of_nat (Z.to_nat (p - 1)) + 1) with p by lia.
    + intros [Hr Hp]. exists (Z.of_nat r + 1). split; [lia|].
      apply list_elem_of_filter. split; [lia|done].
  - intros Hcount. unfold marked_rows. f_equal. rewrite Hcount.
    clear -Hbounds. induction Hbounds as [|p pages [_ Hp] _ IH]; [done|].
    rewrite filter_cons_True by done. by rewrite IH.
Qed.
End SelectionClaims.

(** The range ["0,11"] on three pages finds nothing; pages 3 and 1, clicked
    before, stay selected. *)
Lemma select_pages_nothing_valid_witness :
  select_pages 4300 Sample.entered_0_11
    = (Sample.entered_0_11, [show_error No_valid_pages_in_the_specified_range])
  /\ selected_offsets (select_pages 4300 Sample.entered_0_11).1 = [2; 0]%nat.
Proof.
  apply (select_pages_nothing_valid 4300 Sample.entered_0_11 Sample.three_pages);
    [reflexivity|discriminate|vm_compute; reflexivity].
Defined.

(** Pages 3 and 1 entered as ["3,1"], with page 2 selected before: the rows
    read back are 0 and 2. *)
Lemma select_pages_selects_witness :
  selected_offsets Sample.entered_3_1 = [1]%nat
  /\ selected_offsets (select_pages 4300 Sample.entered_3_1).1 = [0; 2]%nat.
Proof.
  split; [reflexivity|].
  refine (proj1 (proj2 (select_pages_selects 4300 Sample.entered_3_1
                          Sample.three_pages [1; 3] _ _ _) _));
    [reflexivity|discriminate|vm_compute; reflexivity|discriminate].
Defined.

(** C6, as the specification words it, fails.
    - Three pages of which the second has no thumbnail, page 1 selected, the
      range ["3"] entered: page 3 is within the three pages and the parser
      returns it, yet no row is selected, and the selection of page 1 is
      gone.
    - Three pages, pages 3 and 1 selected, the range ["0,11"] entered: all
      its pages are out of range, an error is shown and the selection is
      not cleared.
    - The selecting loop on the pages 3, 1 in that order marks the rows
      2, 0 in that order: the ascending order comes from the parser. *)
Lemma select_pages_not_as_worded :
  (len Sample.middle_unrendered = 3%nat
   /\ parse_page_range 4300 "3" 3 = Return [3]
   /\ selected_offsets Sample.entered_3_middle_unrendered = [0]%nat
   /\ selected_offsets (select_pages 4300 Sample.entered_3_middle_unrendered).1 = [])
  /\ (select_pages 4300 Sample.entered_0_11
      = (Sample.entered_0_11, [show_error No_valid_pages_in_the_specified_range])
      /\ selected_offsets (select_pages 4300 Sample.entered_0_11).1 = [2; 0]%nat)
  /\ selection (select_each [3; 1] (clearSelection (page_list Sample.clicked_3_then_1)))
     = [2; 0]%nat.
Proof. repeat split; vm_compute; reflexivity. Qed.

(** ** Sessions keep the selection within the loaded document *)

Lemma consistent_init : consistent init.
Proof. split; [constructor|]. intros d. discriminate. Qed.

Lemma consistent_same_window self self' :
  page_list self' = page_list self -> pdf_doc self' = pdf_doc self ->
  consistent self -> consistent self'.
Proof. unfold consistent. intros -> ->. done. Qed.

Lemma load_pdf_consistent file_path opened self :
  consistent self -> consistent (load_pdf file_path opened self).1.
Proof.
  intros [Hrows Hcount]. unfold load_pdf. destruct opened as [d|e]; simpl.
  - destruct (load_pages_fresh (Some d) (page_list self)) as [Hsel Hlen].
    destruct (load_pages _ _) as [w out]. simpl in *.
    split; simpl; [rewrite Hsel; constructor|]. intros d' [= <-]. by apply Hlen.
  - split; [done|]. intros d. discriminate.
Qed.

Lemma load_pdf_selection file_path d self :
  selection (page_list (load_pdf file_path (Return d) self).1) = [].
Proof.
  unfold load_pdf. simpl.
  destruct (load_pages_fresh (Some d) (page_list self)) as [Hsel _].
  by destruct (load_pages _ _) as [w out].
Qed.

Lemma click_consistent r self :
  consistent self -> consistent (set_page_list (click r (page_list self)) self).
Proof.
  intros [Hrows Hcount]. unfold click.
  destruct (decide (r < count (page_list self))%nat) as [Hr|]; [|done].
  destruct (decide (r ∈ selection (page_list self))); (split; [|done]); simpl.
  - apply Forall_forall. intros r' [_ Hr']%elem_of_remove_row.
    rewrite Forall_forall in Hrows. by apply Hrows.
  - apply Forall_app. split; [|by repeat constructor].
    apply Forall_forall. intros r' [_ Hr']%elem_of_remove_row.
    rewrite Forall_forall in Hrows. by apply Hrows.
Qed.

Lemma extract_pages_window env self :
  page_list (extract_pages env self).1 = page_list self
  /\ pdf_doc (extract_pages env self).1 = pdf_doc self.
Proof.
  unfold extract_pages. repeat case_match; simpl; try done.
  all: destruct (collect_images _ _ _ _) as [[|img images] out];
    simpl; repeat case_match; done.
Qed.

Lemma extract_separate_pages_window env self :
  page_list (extract_separate_pages env self).1 = page_list self
  /\ pdf_doc (extract_separate_pages env self).1 = pdf_doc self.
Proof.
  unfold extract_separate_pages. repeat case_match; simpl; try done.
  all: destruct (save_each _ _ _ _ _ _) as [n out]; simpl; repeat case_match; done.
Qed.

Lemma extract_as_pdf_window env chosen self :
  page_list (extract_as_pdf env chosen self).1 = page_list self
  /\ pdf_doc (extract_as_pdf env chosen self).1 = pdf_doc self.
Proof. unfold extract_as_pdf. repeat case_match; simpl; done. Qed.

Section SessionClaims.
Variable max_str_digits : nat.

Lemma select_pages_consistent self :
  consistent self -> consistent (select_pages max_str_digits self).1.
Proof.
  intros [Hrows Hcount]. unfold select_pages.
  destruct (truthy (pdf_doc self)) as [d|]; [|done].
  destruct (strip (range_input self)) as [|c r]; [done|].
  destruct (parse_page_range _ _ _) as [[|p pages]|e]; cbn -[select_each]; try done.
  split; cbn -[select_each]; [|by rewrite count_select_each].
  apply Forall_forall. intros r' Hr'. rewrite count_select_each.
  apply elem_of_select_each in Hr' as [Hr'|[Hr' _]]; [|done].
  simpl in Hr'. by apply elem_of_nil in Hr'.
Qed.

Lemma step_consistent a self :
  consistent self -> consistent (step max_str_digits a self).1.
Proof.
  intros Hself. destruct a; simpl.
  - by apply load_pdf_consistent.
  - unfold convert_doc_to_pdf. destruct converted; [|done].
    pose proof (load_pdf_consistent (pdf_beside doc_path) opened self Hself).
    by destruct (load_pdf _ _ _).
  - done.
  - done.
  - unfold browse_folder. by destruct folder.
  - by apply click_consistent.
  - by apply select_pages_consistent.
  - destruct (extract_pages_window env self). by eapply consistent_same_window.
  - destruct (extract_separate_pages_window env self).
    by eapply consistent_same_window.
  - destruct (extract_as_pdf_window env chosen self).
    by eapply consistent_same_window.
Qed.

Lemma run_consistent session : forall self,
  consistent self -> consistent (run max_str_digits session self).1.
Proof.
  induction session as [|a session IH]; intros self Hself; simpl; [done|].
  pose proof (step_consistent a self Hself) as Hstep.
  destruct (step _ a self) as [self1 out1]. simpl in Hstep.
  specialize (IH self1 Hstep). by destruct (run _ session self1).
Qed.

(** C7. Opening a document, directly or after a conversion, leaves no page
    selected, whatever was selected in whatever window before. And after
    any session from the start of the program, every selected offset is
    below the page count of the document that is loaded then. (When
    [fitz.open] fails nothing is loaded: the list keeps its items and its
    selection, and [pdf_doc] is [None].) *)
Theorem reload_empties_selection session self file_path doc_path d :
  selected_offsets (load_pdf file_path (Return d) self).1 = []
  /\ selected_offsets (convert_doc_to_pdf doc_path true (Return d) self).1 = []
  /\ match pdf_doc (run max_str_digits session init).1 with
     | Some loaded =>
         Forall (fun offset => (offset < len loaded)%nat)
                (selected_offsets (run max_str_digits session init).1)
     | None => True
     end.
Proof.
  rewrite !selected_offsets_selection. split; [apply load_pdf_selection|]. split.
  - unfold convert_doc_to_pdf.
    pose proof (load_pdf_selection (pdf_beside doc_path) d self).
    by destruct (load_pdf _ _ _).
  - destruct (run_consistent session init consistent_init) as [Hrows Hcount].
    destruct (pdf_doc _) as [loaded|]; [|done].
    specialize (Hcount loaded eq_refl).
    eapply Forall_impl; [exact Hrows|]. simpl. lia.
Qed.
End SessionClaims.

(** Three pages with two of them selected, then a document of one page:
    nothing is selected after the reload. *)
Example reload_with_fewer_pages :
  let before := Sample.clicked_3_then_1 in
  let after := (load_pdf (path_of "c.pdf") (Return Sample.one_page) before).1 in
  selected_offsets before = [2; 0]%nat /\ selected_offsets after = []
  /\ count (page_list after) = 1%nat.
Proof. vm_compute. done. Qed.

(** ** Exports *)

Lemma fold_left_add xs : forall a, fold_left Z.add xs a = a + total xs.
Proof.
  induction xs as [|x xs IH]; intros a; simpl; [lia|]. rewrite IH. unfold total. lia.
Qed.

Lemma sum_total xs : sum xs = total xs.
Proof. unfold sum. by rewrite fold_left_add. Qed.

Lemma fold_left_max xs : forall x,
  x <= fold_left Z.max xs x
  /\ Forall (fun y => y <= fold_left Z.max xs x) xs
  /\ (fold_left Z.max xs x = x \/ fold_left Z.max xs x ∈ xs).
Proof.
  induction xs as [|y xs IH]; intros x; simpl.
  { split; [lia|]. split; [constructor|by left]. }
  destruct (IH (Z.max x y)) as (Hle & Hall & Hin).
  split; [lia|]. split; [constructor; [lia|done]|].
  destruct Hin as [Heq|Hin]; [|right; by right].
  rewrite Heq. destruct (Z.max_spec x y) as [[_ ->]|[_ ->]]; [right; by left|by left].
Qed.

(** [max_] of a list that is not empty is an element above all others. *)
Lemma max_spec xs m :
  max_ xs = Return m -> Forall (fun y => y <= m) xs /\ m ∈ xs.
Proof.
  destruct xs as [|x xs]; [discriminate|]. simpl. intros [= <-].
  destruct (fold_left_max xs x) as (Hle & Hall & Hin).
  split; [by constructor|]. destruct Hin as [->|?]; [by left|by right].
Qed.

Lemma collect_images_spec d page_nums : forall images out,
  exists prints,
    collect_images d page_nums images out
      = (images ++ rasterized d page_nums, out ++ prints)
    /\ canvases_saved prints = [].
Proof.
  induction page_nums as [|n page_nums IH]; intros images out; simpl.
  { exists []. by rewrite !(right_id_L [] (++)). }
  unfold rasterized. simpl. destruct (rasterize d n) as [img|e]; simpl.
  - destruct (IH (images ++ [img]) out) as (prints & -> & Hp).
    exists prints. by rewrite <- (assoc_L (++)).
  - destruct (IH images (out ++ [print (Error_processing_page (n + 1))]))
      as (prints & -> & Hp).
    exists (print (Error_processing_page (n + 1)) :: prints).
    by rewrite <- (assoc_L (++)).
Qed.

Lemma paste_each_spec images : forall y combined,
  canvas_width (paste_each images y combined) = canvas_width combined
  /\ canvas_height (paste_each images y combined) = canvas_height combined
  /\ pasted (paste_each images y combined)
     = pasted combined
       ++ imap (fun i img => (img, (0, y + total (height <$> take i images)))) images.
Proof.
  induction images as [|img images IH]; intros y combined.
  { simpl. by rewrite (right_id_L [] (++)). }
  cbn [paste_each].
  destruct (IH (y + height img) (paste img (0, y) combined)) as (-> & -> & ->).
  split; [done|]. split; [done|]. rewrite imap_cons. cbn [paste pasted].
  rewrite <- (assoc_L (++)). cbn [app]. f_equal. apply (f_equal2 cons).
  - cbn [take fmap list_fmap total foldr]. do 2 f_equal. lia.
  - apply imap_ext. intros i img' _. simpl. do 2 f_equal. unfold total. simpl.
    symmetry. apply Z.add_assoc.
Qed.

Lemma ensure_folder_effects env folder made :
  ensure_folder env folder = Return made -> made = [] \/ made = [os_makedirs folder].
Proof.
  unfold ensure_folder. destruct (exists_ env folder); [intros [= <-]; by left|].
  destruct (makedirs env folder); simpl; [|discriminate]. intros [= <-]. by right.
Qed.

Lemma save_each_spec env d folder page_nums : forall success_count out,
  exists events,
    save_each env d folder page_nums success_count out
      = ((success_count + length (extracted env d folder page_nums))%nat, out ++ events)
    /\ images_saved events
       = (fun '(n, img) => (join folder (page_filename n), img))
           <$> extracted env d folder page_nums
    /\ Forall (fun e => forall m, e <> show_error m) events.
Proof.
  induction page_nums as [|n page_nums IH]; intros success_count out; simpl.
  { exists []. rewrite (right_id_L [] (++)). split; [f_equal; lia|]. done. }
  unfold extracted. simpl. destruct (rasterize d n) as [img|e]; simpl.
  - destruct (save env (join folder (page_filename n))) as [[]|e]; simpl.
    + destruct (IH (success_count + 1)%nat
                   (out ++ [save_image (join folder (page_filename n)) img]))
        as (events & -> & Hsaved & Hno).
      exists (save_image (join folder (page_filename n)) img :: events).
      rewrite <- (assoc_L (++)). split; [f_equal; unfold extracted; lia|].
      split; [simpl; by rewrite Hsaved|]. by constructor.
    + destruct (IH success_count (out ++ [print (Error_extracting_page (n + 1))]))
        as (events & -> & Hsaved & Hno).
      exists (print (Error_extracting_page (n + 1)) :: events).
      rewrite <- (assoc_L (++)). split; [done|]. split; [done|]. by constructor.
  - destruct (IH success_count (out ++ [print (Error_extracting_page (n + 1))]))
      as (events & -> & Hsaved & Hno).
    exists (print (Error_extracting_page (n + 1)) :: events).
    rewrite <- (assoc_L (++)). split; [done|]. split; [done|]. by constructor.
Qed.

Lemma insert_each_spec d selected_items : forall new_pdf inserted,
  insert_each d selected_items new_pdf = Return inserted ->
  exists added, inserted = new_pdf ++ added
    /\ Forall2 (fun n page => pages d !! Nat.min n (len d - 1) = Some page)
               selected_items added.
Proof.
  induction selected_items as [|item items IH]; intros new_pdf inserted; simpl.
  { intros [= <-]. exists []. by rewrite (right_id_L [] (++)). }
  unfold getitem, row.
  destruct (pages d !! Nat.min item (len d - 1)) as [page|] eqn:Hpage; simpl;
    [|discriminate].
  intros (added & -> & Hadded)%IH. exists (page :: added).
  rewrite <- (assoc_L (++)). split; [done|]. by constructor.
Qed.

Lemma canvases_saved_made env folder made :
  ensure_folder env folder = Return made -> canvases_saved made = [].
Proof. by intros [->| ->]%ensure_folder_effects. Qed.

Lemma images_saved_made env folder made :
  ensure_folder env folder = Return made -> images_saved made = [].
Proof. by intros [->| ->]%ensure_folder_effects. Qed.

Lemma extracted_sublist env d folder page_nums :
  (extracted env d folder page_nums).*1 `sublist_of` page_nums.
Proof.
  unfold extracted. induction page_nums as [|n page_nums IH]; simpl; [constructor|].
  destruct (rasterize d n) as [img|]; [|by constructor].
  destruct (save env _) as [[]|]; [|by constructor]. simpl. by constructor.
Qed.

(** What [extract_pages] puts out once the folder is there and some page
    rasterises. *)
Lemma extract_pages_effects env self d made :
  truthy (pdf_doc self) = Some d ->
  selectedItems (page_list self) <> [] ->
  ensure_folder env (output_folder env self) = Return made ->
  rasterized d (selected_offsets self) <> [] ->
  exists prints max_width,
    canvases_saved prints = []
    /\ max_ (width <$> rasterized d (selected_offsets self)) = Return max_width
    /\ (extract_pages env self).2
       = (made ++ prints) ++
         match save env (join (output_folder env self) "merged_pages.png") with
         | Return _ =>
             [save_canvas (join (output_folder env self) "merged_pages.png")
                (paste_each (rasterized d (selected_offsets self)) 0
                   (Image_new max_width
                      (sum (height <$> rasterized d (selected_offsets self)))));
              show_success (Saved_combined_image_to
                              (join (output_folder env self) "merged_pages.png"))]
         | Raise e => [show_error (Error_during_extraction e)]
         end.
Proof.
  intros Hd Hsel Hfolder Himages. unfold extract_pages, selected_offsets in *.
  rewrite Hd. destruct (selectedItems (page_list self)) as [|item items]; [done|].
  rewrite Hfolder.
  destruct (collect_images_spec d (map row (item :: items)) [] made)
    as (prints & -> & Hprints).
  cbn [app]. destruct (rasterized d (map row (item :: items))) as [|img images] eqn:Hr;
    [done|].
  exists prints, (fold_left Z.max (width <$> images) (width img)).
  split; [done|]. split; [done|].
  cbn [max_ map fmap list_fmap mbind result_bind].
  change (list_fmap Image Z width images) with (width <$> images).
  by destruct (save env _) as [[]|e].
Qed.

(** C8. With a document loaded, pages selected, the output folder in place,
    at least one selected page rasterising and the file writable,
    [extract_pages] saves one image, as [merged_pages.png] in the output
    folder. Its width is the largest width among the rasterised pages, its
    height the sum of their heights, and it holds the rasterised pages in
    the order of the selection, each pasted at [x = 0] and at the [y] that
    is the sum of the heights of the pages before it. *)
Theorem merged_image env self d made :
  truthy (pdf_doc self) = Some d ->
  selectedItems (page_list self) <> [] ->
  ensure_folder env (output_folder env self) = Return made ->
  rasterized d (selected_offsets self) <> [] ->
  save env (join (output_folder env self) "merged_pages.png") = Return tt ->
  exists combined,
    canvases_saved (extract_pages env self).2
      = [(join (output_folder env self) "merged_pages.png", combined)]
    /\ Forall (fun img => width img <= canvas_width combined)
              (rasterized d (selected_offsets self))
    /\ Exists (fun img => width img = canvas_width combined)
              (rasterized d (selected_offsets self))
    /\ canvas_height combined = total (height <$> rasterized d (selected_offsets self))
    /\ pasted combined
       = imap (fun i img =>
                 (img, (0, total (height <$> take i (rasterized d (selected_offsets self))))))
              (rasterized d (selected_offsets self)).
Proof.
  intros Hd Hsel Hfolder Himages Hsave.
  destruct (extract_pages_effects env self d made Hd Hsel Hfolder Himages)
    as (prints & max_width & Hprints & Hmax & ->).
  rewrite Hsave. eexists. split.
  { unfold canvases_saved. rewrite !omap_app. fold (canvases_saved made).
    fold (canvases_saved prints).
    by rewrite (canvases_saved_made _ _ _ Hfolder), Hprints. }
  destruct (paste_each_spec (rasterized d (selected_offsets self)) 0
              (Image_new max_width
                 (sum (height <$> rasterized d (selected_offsets self)))))
    as (-> & -> & ->).
  apply max_spec in Hmax as [Hall Hin]. simpl.
  split; [rewrite Forall_fmap in Hall; exact Hall|]. split.
  { apply list_elem_of_fmap in Hin as (img & -> & Himg).
    apply Exists_exists. eauto. }
  split; [apply sum_total|].
  apply imap_ext. intros i img _. simpl. by rewrite Z.add_0_l.
Qed.

(** What [extract_separate_pages] puts out once the folder is there. *)
Lemma extract_separate_pages_effects env self d made :
  truthy (pdf_doc self) = Some d ->
  selectedItems (page_list self) <> [] ->
  ensure_folder env (output_folder env self) = Return made ->
  exists events,
    images_saved events
      = (fun '(n, img) => (join (output_folder env self) (page_filename n), img))
          <$> extracted env d (output_folder env self) (selected_offsets self)
    /\ Forall (fun e => forall m, e <> show_error m) (made ++ events)
    /\ (extract_separate_pages env self).2
       = (made ++ events) ++
         [match extracted env d (output_folder env self) (selected_offsets self) with
          | [] => show_error Failed_to_extract_any_pages
          | written =>
              show_success (Extracted_pages_to (length written) (output_folder env self))
          end].
Proof.
  intros Hd Hsel Hfolder. unfold extract_separate_pages, selected_offsets in *.
  rewrite Hd. destruct (selectedItems (page_list self)) as [|item items]; [done|].
  rewrite Hfolder.
  destruct (save_each_spec env d (output_folder env self) (map row (item :: items)) 0 made)
    as (events & -> & Hsaved & Hno).
  exists events. split; [done|]. split.
  { apply Forall_app. split; [|done].
    apply ensure_folder_effects in Hfolder as [->| ->]; by repeat constructor. }
  cbn [Nat.add].
  by destruct (extracted env d (output_folder env self) (map row (item :: items))).
Qed.

(** C9. With a document loaded, pages selected and the output folder in
    place, [extract_separate_pages] writes, for every selected page that
    rasterises and whose file can be written, the image of page offset [n]
    as [page_<n+1>.png] in the output folder, in the order of the
    selection. A page that fails is skipped and the pages after it are
    still written. The last thing shown is the success message with the
    number of pages written when that number is not zero, and the error
    "Failed to extract any pages" when it is zero, which is the only case
    where that error is shown. *)
Theorem separate_images env self d made :
  truthy (pdf_doc self) = Some d ->
  selectedItems (page_list self) <> [] ->
  ensure_folder env (output_folder env self) = Return made ->
  images_saved (extract_separate_pages env self).2
    = (fun '(n, img) =>
         (join (output_folder env self) ("page_" +:+ pretty (n + 1)%nat +:+ ".png"), img))
        <$> extracted env d (output_folder env self) (selected_offsets self)
  /\ last (extract_separate_pages env self).2
     = Some (match extracted env d (output_folder env self) (selected_offsets self) with
             | [] => show_error Failed_to_extract_any_pages
             | written =>
                 show_success (Extracted_pages_to (length written) (output_folder env self))
             end)
  /\ (show_error Failed_to_extract_any_pages ∈ (extract_separate_pages env self).2
      <-> extracted env d (output_folder env self) (selected_offsets self) = []).
Proof.
  intros Hd Hsel Hfolder.
  destruct (extract_separate_pages_effects env self d made Hd Hsel Hfolder)
    as (events & Hsaved & Hno & ->).
  split; [|split].
  - unfold images_saved in *. rewrite !omap_app.
    fold (images_saved made). rewrite (images_saved_made _ _ _ Hfolder).
    rewrite Hsaved. simpl.
    destruct (extracted _ _ _ _); simpl; rewrite ?(right_id_L [] (++)); reflexivity.
  - by rewrite last_snoc.
  - rewrite elem_of_app, list_elem_of_singleton. rewrite Forall_forall in Hno.
    destruct (extracted _ _ _ _) as [|first written].
    + split; [done|]. intros _. by right.
    + split; [|done]. intros [Hin|Heq]; [|done].
      destruct (Hno _ Hin Failed_to_extract_any_pages eq_refl).
Qed.

Lemma Forall2_pages_at d offsets new_pdf :
  Forall (fun n => (n < len d)%nat) offsets ->
  Forall2 (fun n page => pages d !! Nat.min n (len d - 1) = Some page) offsets new_pdf ->
  new_pdf = pages_at d offsets.
Proof.
  unfold pages_at. intros Hin.
  induction 1 as [|n page offsets new_pdf Hn _ IH]; [done|].
  apply Forall_cons in Hin as [Hlt Hin]. rewrite Nat.min_l in Hn by lia.
  simpl. by rewrite Hn, IH.
Qed.

(** C3, as the code has it: no export sorts. Each of the three takes the
    selected items in the order in which [selectedItems()] reports them,
    that is the order in which they were selected. With a document loaded:
    a merged image holds the selected pages that rasterise in that order;
    the image files written are those of a part of the selected pages, in
    that order; a new PDF holds the pages at the selected offsets in that
    order, the selected rows being rows of the list of the loaded document
    as they are after every session. *)
Theorem exports_follow_selection_order env chosen self d :
  truthy (pdf_doc self) = Some d ->
  Forall (fun saved => (pasted saved.2).*1 = rasterized d (selected_offsets self))
         (canvases_saved (extract_pages env self).2)
  /\ (exists kept, kept `sublist_of` selected_offsets self /\
       (images_saved (extract_separate_pages env self).2).*1
         = (fun n => join (output_folder env self) (page_filename n)) <$> kept)
  /\ (consistent self ->
      Forall (fun saved => saved.2 = pages_at d (selected_offsets self))
             (pdfs_saved (extract_as_pdf env chosen self).2)).
Proof.
  intros Hd. split; [|split].
  - destruct (selectedItems (page_list self)) as [|item items] eqn:Hsel.
    { unfold extract_pages. rewrite Hd, Hsel. constructor. }
    destruct (ensure_folder env (output_folder env self)) as [made|e] eqn:Hfolder.
    2: { unfold extract_pages. rewrite Hd, Hsel, Hfolder. constructor. }
    destruct (rasterized d (selected_offsets self)) as [|img images] eqn:Hr.
    { unfold extract_pages. rewrite Hd, Hsel, Hfolder.
      destruct (collect_images_spec d (map row (item :: items)) [] made)
        as (prints & -> & Hprints).
      unfold selected_offsets in Hr. rewrite Hsel in Hr. rewrite Hr. simpl.
      unfold canvases_saved in *. rewrite !omap_app.
      fold (canvases_saved made). rewrite (canvases_saved_made _ _ _ Hfolder).
      rewrite Hprints. constructor. }
    destruct (extract_pages_effects env self d made) as (prints & w & Hprints & _ & ->);
      [done|by rewrite Hsel|done|by rewrite Hr|].
    unfold canvases_saved in *. rewrite !omap_app.
    fold (canvases_saved made). rewrite (canvases_saved_made _ _ _ Hfolder).
    rewrite Hprints. destruct (save env _) as [[]|e]; simpl; [|constructor].
    repeat constructor. simpl.
    destruct (paste_each_spec (rasterized d (selected_offsets self)) 0
                (Image_new w (sum (height <$> rasterized d (selected_offsets self)))))
      as (_ & _ & ->).
    simpl. rewrite <- Hr, fmap_imap.
    rewrite (imap_ext _ (const id)) by done. by rewrite imap_const, list_fmap_id.
  - destruct (selectedItems (page_list self)) as [|item items] eqn:Hsel.
    { exists []. unfold extract_separate_pages. rewrite Hd, Hsel.
      split; [apply sublist_nil_l|done]. }
    destruct (ensure_folder env (output_folder env self)) as [made|e] eqn:Hfolder.
    2: { exists []. unfold extract_separate_pages. rewrite Hd, Hsel, Hfolder.
         split; [apply sublist_nil_l|done]. }
    destruct (extract_separate_pages_effects env self d made)
      as (events & Hsaved & _ & ->); [done|by rewrite Hsel|done|].
    exists (extracted env d (output_folder env self) (selected_offsets self)).*1.
    split; [apply extracted_sublist|].
    unfold images_saved in *. rewrite !omap_app.
    fold (images_saved made). rewrite (images_saved_made _ _ _ Hfolder).
    rewrite Hsaved.
    replace (omap _ [_]) with (@nil (path * Image)) by (by destruct (extracted _ _ _ _)).
    rewrite (right_id_L [] (++)). simpl. rewrite <- !list_fmap_compose.
    apply list_fmap_ext. by intros _ [n img] _.
  - intros [Hrows Hcount].
    assert (Hin : Forall (fun r => (r < len d)%nat) (selectedItems (page_list self))).
    { assert (pdf_doc self = Some d) as Hdoc.
      { unfold truthy in Hd. destruct (pdf_doc self) as [d'|]; [|done].
        by destruct (len d' =? 0)%nat. }
      specialize (Hcount d Hdoc). eapply Forall_impl; [exact Hrows|]. simpl. lia. }
    unfold extract_as_pdf. rewrite Hd. unfold selected_offsets.
    destruct (selectedItems (page_list self)) as [|item items] eqn:Hsel; [constructor|].
    destruct chosen as [|c r]; [constructor|].
    assert (map row (item :: items) = item :: items) as -> by apply map_id.
    destruct (insert_each d (item :: items) []) as [new_pdf|e] eqn:Hins;
      cbn -[pages_at]; [|constructor].
    destruct (save env _) as [[]|e]; cbn -[pages_at]; [|constructor].
    repeat constructor. cbn [snd].
    apply insert_each_spec in Hins as (added & -> & Hadded). cbn [app].
    by apply Forall2_pages_at.
Qed.

(** Two pages of 40 by 80 and 120 by 20: the merged image is 100 high, the
    second page is pasted at [y = 80]. *)
Lemma merged_image_witness :
  exists combined,
    canvases_saved (extract_pages Sample.env Sample.selected_1_2).2
      = [(join Sample.folder "merged_pages.png", combined)]
    /\ Forall (fun img => width img <= canvas_width combined)
              [{| width := 40; height := 80; data := [] |};
               {| width := 120; height := 20; data := [] |}]
    /\ canvas_height combined = 100
    /\ pasted combined = [({| width := 40; height := 80; data := [] |}, (0, 0));
                          ({| width := 120; height := 20; data := [] |}, (0, 80))].
Proof.
  destruct (merged_image Sample.env Sample.selected_1_2 Sample.three_pages [])
    as (combined & Hsaved & Hall & _ & Hheight & Hpasted);
    [reflexivity|discriminate|reflexivity|discriminate|reflexivity|].
  exists combined. split; [exact Hsaved|]. split; [exact Hall|].
  split; [exact Hheight|exact Hpasted].
Defined.

(** Three pages selected, the second does not rasterise: pages 1 and 3 are
    written and the count shown is 2. *)
Lemma separate_images_witness :
  (images_saved (extract_separate_pages Sample.env Sample.clicked_all_middle_broken).2).*1
    = [join Sample.folder "page_1.png"; join Sample.folder "page_3.png"]
  /\ last (extract_separate_pages Sample.env Sample.clicked_all_middle_broken).2
     = Some (show_success (Extracted_pages_to 2 Sample.folder)).
Proof.
  destruct (separate_images Sample.env Sample.clicked_all_middle_broken
              Sample.middle_broken []) as (Hsaved & Hlast & _);
    [reflexivity|discriminate|reflexivity|].
  split; [rewrite Hsaved; reflexivity|exact Hlast].
Defined.

(** Page 3 clicked before page 1: the new PDF holds the pages at the offsets
    2 and 0, in that order. *)
Lemma exports_follow_selection_order_witness :
  Forall (fun saved => saved.2 = pages_at Sample.three_pages [2; 0]%nat)
         (pdfs_saved (extract_as_pdf Sample.env "out.pdf" Sample.clicked_3_then_1).2).
Proof.
  refine (proj2 (proj2 (exports_follow_selection_order Sample.env "out.pdf"
                          Sample.clicked_3_then_1 Sample.three_pages _)) _);
    [reflexivity|].
  split; [repeat constructor|]. intros d [= <-]. vm_compute. lia.
Defined.

(** C3, as the specification words it, fails. In a window of three pages
    where page 3 was clicked before page 1, the selected offsets are read as
    2, 0. The new PDF holds page 3 before page 1, which is not the ascending
    order; the separate images are written as [page_3.png] and then
    [page_1.png]; the merged image has page 3 on top. *)
Lemma exports_not_in_ascending_order :
  selected_offsets Sample.clicked_3_then_1 = [2; 0]%nat
  /\ pdfs_saved (extract_as_pdf Sample.env "out.pdf" Sample.clicked_3_then_1).2
     = [(path_of "out.pdf", [Sample.page 7 7; Sample.page 10 20])]
  /\ [Sample.page 7 7; Sample.page 10 20]
     <> pages_at Sample.three_pages
          (merge_sort le (selected_offsets Sample.clicked_3_then_1))
  /\ (images_saved (extract_separate_pages Sample.env Sample.clicked_3_then_1).2).*1
     = [join Sample.folder "page_3.png"; join Sample.folder "page_1.png"]
  /\ (fun saved => (pasted saved.2).*1)
       <$> canvases_saved (extract_pages Sample.env Sample.clicked_3_then_1).2
     = [[{| width := 28; height := 28; data := [] |};
         {| width := 40; height := 80; data := [] |}]].
Proof. repeat split; try (vm_compute; reflexivity). vm_compute. discriminate. Qed.

(** * Further properties of the range parser *)

Lemma split_app_separator sep a b :
  split sep (a +:+ String sep b) = split sep a ++ split sep b.
Proof.
  induction a as [|c a IH]; simpl.
  { by rewrite Ascii.eqb_refl. }
  destruct (Ascii.eqb c sep); [by rewrite IH|].
  rewrite IH. pose proof (split_length sep a).
  by destruct (split sep a); [simpl in *; lia|].
Qed.

Lemma list_to_set_sorted pages : list_to_set (sorted pages) = pages.
Proof. apply set_eq. intros p. by rewrite elem_of_list_to_set, elem_of_sorted. Qed.

Section ParserComposition.
Variable max_str_digits : nat.

(** What a round of the loop adds does not depend on the pages found
    before. *)
Lemma parse_part_union total_pages pages part :
  parse_part max_str_digits total_pages pages part
  = (found ← parse_part max_str_digits total_pages ∅ part; Return (pages ∪ found)).
Proof.
  unfold parse_part. destruct (strip part) as [|c r].
  { simpl. by rewrite (right_id_L ∅ (∪)). }
  cbv beta iota zeta. generalize (String c r). intros s.
  destruct (contains _ _).
  - destruct (split _ _) as [|a [|b [|]]]; try reflexivity.
    destruct (int max_str_digits (strip a)) as [A|[]]; simpl; try reflexivity;
      [|by rewrite (right_id_L ∅ (∪))].
    destruct (int max_str_digits (strip b)) as [B|[]]; simpl; try reflexivity;
      [|by rewrite (right_id_L ∅ (∪))].
    destruct (_ || _); simpl; [by rewrite (right_id_L ∅ (∪))|].
    by rewrite (left_id_L ∅ (∪)).
  - destruct (int max_str_digits _) as [page|[]]; simpl; try reflexivity;
      [|by rewrite (right_id_L ∅ (∪))].
    destruct (_ && _); simpl; [|by rewrite (right_id_L ∅ (∪))].
    by rewrite (left_id_L ∅ (∪)).
Qed.

Lemma parse_parts_app total_pages parts1 parts2 : forall pages,
  parse_parts max_str_digits total_pages pages (parts1 ++ parts2)
  = (pages1 ← parse_parts max_str_digits total_pages pages parts1;
     parse_parts max_str_digits total_pages pages1 parts2).
Proof.
  induction parts1 as [|part parts1 IH]; intros pages; simpl; [done|].
  destruct (parse_part _ _ _ _); simpl; [apply IH|done].
Qed.

Lemma parse_parts_union total_pages parts : forall pages,
  parse_parts max_str_digits total_pages pages parts
  = (found ← parse_parts max_str_digits total_pages ∅ parts; Return (pages ∪ found)).
Proof.
  induction parts as [|part parts IH]; intros pages; simpl.
  { by rewrite (right_id_L ∅ (∪)). }
  rewrite (parse_part_union total_pages pages).
  destruct (parse_part max_str_digits total_pages ∅ part) as [found|e]; simpl; [|done].
  rewrite (IH (pages ∪ found)), (IH found).
  destruct (parse_parts max_str_digits total_pages ∅ parts) as [found'|e]; simpl; [|done].
  by rewrite (assoc_L (∪)).
Qed.

Lemma parse_parts_raises total_pages parts : forall pages e,
  parse_parts max_str_digits total_pages pages parts = Raise e ->
  e = ValueError /\ Exists two_dashes parts.
Proof.
  induction parts as [|part parts IH]; intros pages e; simpl; [done|].
  destruct (parse_part max_str_digits total_pages pages part) as [pages1|e1] eqn:Hpart;
    simpl.
  - intros [-> Hex]%IH. split; [done|]. by right.
  - intros [= ->]. apply parse_part_raises in Hpart as [-> Hlen].
    split; [done|]. by left.
Qed.

Lemma parse_part_two_dashes total_pages pages part :
  two_dashes part ->
  parse_part max_str_digits total_pages pages part = Raise ValueError.
Proof.
  unfold two_dashes, parse_part. intros Hlen.
  destruct (strip part) as [|c r] eqn:Hstrip; [simpl in Hlen; lia|].
  destruct (contains "-" (String c r)) eqn:Hdash.
  - by destruct (split "-" (String c r)) as [|a [|b [|]]]; simpl in Hlen; try lia.
  - rewrite (split_without_separator _ _ Hdash) in Hlen. simpl in Hlen. lia.
Qed.

Lemma parse_parts_two_dashes total_pages parts : forall pages,
  Exists two_dashes parts ->
  parse_parts max_str_digits total_pages pages parts = Raise ValueError.
Proof.
  induction parts as [|part parts IH]; intros pages Hex; [by apply Exists_nil in Hex|].
  simpl. apply Exists_cons in Hex as [Hpart|Hparts].
  - by rewrite parse_part_two_dashes.
  - destruct (parse_part max_str_digits total_pages pages part) as [pages1|e] eqn:Hp;
      simpl; [by apply IH|].
    by apply parse_part_raises in Hp as [-> _].
Qed.

Lemma parse_parts_Permutation total_pages parts1 parts2 :
  parts1 ≡ₚ parts2 -> forall pages,
  parse_parts max_str_digits total_pages pages parts1
  = parse_parts max_str_digits total_pages pages parts2.
Proof.
  induction 1 as [|part parts1 parts2 _ IH|part1 part2 parts|parts1 parts2 parts3 _ IH1 _ IH2];
    intros pages; simpl.
  - done.
  - destruct (parse_part _ _ _ _); simpl; [apply IH|done].
  - rewrite (parse_part_union total_pages pages part1),
      (parse_part_union total_pages pages part2).
    destruct (parse_part max_str_digits total_pages ∅ part1) as [found1|e1] eqn:H1;
      destruct (parse_part max_str_digits total_pages ∅ part2) as [found2|e2] eqn:H2;
      simpl.
    + rewrite (parse_part_union total_pages (pages ∪ found2)),
        (parse_part_union total_pages (pages ∪ found1)), H1, H2. simpl.
      f_equal. rewrite <- !(assoc_L (∪)). f_equal. apply (comm_L (∪)).
    + by rewrite (parse_part_union total_pages (pages ∪ found1)), H2.
    + by rewrite (parse_part_union total_pages (pages ∪ found2)), H1.
    + apply parse_part_raises in H1 as [-> _]. by apply parse_part_raises in H2 as [-> _].
  - by rewrite IH1, IH2.
Qed.

Lemma elem_of_parse_parts total_pages parts : forall pages pages',
  parse_parts max_str_digits total_pages pages parts = Return pages' ->
  forall p, p ∈ pages' <->
    p ∈ pages \/ exists part found, part ∈ parts
      /\ parse_part max_str_digits total_pages ∅ part = Return found /\ p ∈ found.
Proof.
  induction parts as [|part parts IH]; intros pages pages'; simpl.
  { intros [= <-] p. split; [by left|]. intros [?|(? & ? & []%elem_of_nil & _)]. done. }
  rewrite (parse_part_union total_pages pages).
  destruct (parse_part max_str_digits total_pages ∅ part) as [found|e] eqn:Hpart;
    simpl; [|done].
  intros Hrest p. rewrite (IH _ _ Hrest p), elem_of_union. split.
  - intros [[?|?]|(part' & found' & ? & ? & ?)]; [by left| |].
    + right. exists part, found. split; [by left|done].
    + right. exists part', found'. split; [by right|done].
  - intros [?|(part' & found' & [->|?]%elem_of_cons & Hp' & ?)]; [by left; left| |].
    + rewrite Hpart in Hp'. injection Hp' as <-. left. by right.
    + right. by exists part', found'.
Qed.

(** X1. The list [parse_page_range] returns holds exactly the pages that
    some comma-separated part of the text contributes on its own: it is the
    union of what the parts contribute. *)
Theorem parse_page_range_union range_text total_pages pages :
  parse_page_range max_str_digits range_text total_pages = Return pages ->
  forall p, p ∈ pages <->
    exists part found, part ∈ split "," range_text
      /\ parse_part max_str_digits total_pages ∅ part = Return found /\ p ∈ found.
Proof.
  unfold parse_page_range.
  destruct (parse_parts _ _ _ _) as [all|] eqn:Hparts; simpl; [|done].
  intros [= <-] p. rewrite elem_of_sorted, (elem_of_parse_parts _ _ _ _ Hparts p).
  split; [intros [[]%not_elem_of_empty|?]; done|by right].
Qed.

(** X2. The order of the comma-separated parts does not matter: two texts
    whose parts are the same up to order parse alike, the same list or
    the same error. *)
Theorem parse_page_range_order range_text1 range_text2 total_pages :
  split "," range_text1 ≡ₚ split "," range_text2 ->
  parse_page_range max_str_digits range_text1 total_pages
  = parse_page_range max_str_digits range_text2 total_pages.
Proof.
  intros Hperm. unfold parse_page_range.
  by rewrite (parse_parts_Permutation _ _ _ Hperm).
Qed.

(** X3. Parsing two texts joined by a comma is parsing each and merging:
    the result is the sorted union of the two lists, and an error of either
    is the error of the whole. *)
Theorem parse_page_range_comma range_text1 range_text2 total_pages :
  parse_page_range max_str_digits (range_text1 +:+ "," +:+ range_text2) total_pages
  = (pages1 ← parse_page_range max_str_digits range_text1 total_pages;
     pages2 ← parse_page_range max_str_digits range_text2 total_pages;
     Return (sorted (list_to_set pages1 ∪ list_to_set pages2))).
Proof.
  unfold parse_page_range. change ("," +:+ range_text2) with (String "," range_text2).
  rewrite split_app_separator, parse_parts_app.
  destruct (parse_parts max_str_digits total_pages ∅ (split "," range_text1))
    as [found1|e1]; simpl; [|done].
  rewrite (parse_parts_union total_pages _ found1).
  destruct (parse_parts max_str_digits total_pages ∅ (split "," range_text2))
    as [found2|e2]; simpl; [|done].
  by rewrite !list_to_set_sorted.
Qed.

(** X4. [parse_page_range] raises exactly when some part, once stripped,
    has two dashes or more, and what it raises is [ValueError]. *)
Theorem parse_page_range_raises_iff range_text total_pages e :
  parse_page_range max_str_digits range_text total_pages = Raise e <->
  e = ValueError /\ Exists two_dashes (split "," range_text).
Proof.
  unfold parse_page_range. split.
  - destruct (parse_parts _ _ _ _) as [found|e'] eqn:Hparts; simpl; [done|].
    intros [= ->]. by apply parse_parts_raises in Hparts.
  - intros [-> Hex]. by rewrite parse_parts_two_dashes.
Qed.

End ParserComposition.

Lemma blank_split range_text :
  blank range_text = true ->
  Forall (fun part => strip part = EmptyString) (split "," range_text).
Proof.
  induction range_text as [|c r IH]; simpl; [by repeat constructor|].
  intros [Hc Hr]%andb_true_iff. specialize (IH Hr).
  destruct (Ascii.eqb c ",") eqn:Hcomma; [by constructor|].
  rewrite orb_false_r in Hc.
  pose proof (split_length "," r) as Hlen.
  destruct (split "," r) as [|piece pieces]; [simpl in Hlen; lia|].
  apply Forall_cons in IH as [Hpiece Hpieces]. constructor; [|done].
  unfold strip in *. simpl. by rewrite Hc.
Qed.

Section BlankText.
Variable max_str_digits : nat.

Lemma parse_parts_blank total_pages parts : forall pages,
  Forall (fun part => strip part = EmptyString) parts ->
  parse_parts max_str_digits total_pages pages parts = Return pages.
Proof.
  induction parts as [|part parts IH]; intros pages Hall; [done|].
  apply Forall_cons in Hall as [Hpart Hparts]. simpl.
  unfold parse_part at 1. rewrite Hpart. simpl. by apply IH.
Qed.

(** X5. A text made of white space and commas only (the empty text, a lone
    comma, blanks between commas) parses to the empty list without error,
    whatever the number of pages. *)
Theorem parse_page_range_blank range_text total_pages :
  blank range_text = true ->
  parse_page_range max_str_digits range_text total_pages = Return [].
Proof.
  intros Hblank. unfold parse_page_range.
  rewrite (parse_parts_blank _ _ _ (blank_split _ Hblank)). simpl.
  by rewrite sorted_empty.
Qed.
End BlankText.

Lemma parse_page_range_union_witness :
  3 ∈ [2; 3; 7] <->
    exists part found, part ∈ ["7"; " 2 - 3 "; "x"]
      /\ parse_part 4300 10 ∅ part = Return found /\ 3 ∈ found.
Proof.
  apply (parse_page_range_union 4300 "7, 2 - 3 ,x" 10 [2; 3; 7]).
  vm_compute. reflexivity.
Defined.

Lemma parse_page_range_order_witness :
  parse_page_range 4300 "7,2-3" 10 = parse_page_range 4300 "2-3,7" 10.
Proof.
  apply (parse_page_range_order 4300 "7,2-3" "2-3,7" 10).
  apply Permutation_swap.
Defined.

Lemma parse_page_range_blank_witness :
  parse_page_range 4300 " , ,," 10 = Return [].
Proof. apply (parse_page_range_blank 4300 " , ,," 10). reflexivity. Defined.

(** * Further properties of the thumbnail list *)

Lemma StronglySorted_filter_seq (P : nat -> Prop) `{forall n, Decision (P n)} k :
  forall start, StronglySorted lt (filter P (seq start k)).
Proof.
  induction k as [|k IH]; intros start; simpl; [constructor|].
  rewrite filter_cons. case_decide; [|apply IH].
  constructor; [apply IH|]. apply Forall_forall.
  intros n [_ Hn%elem_of_seq]%list_elem_of_filter. lia.
Qed.

Lemma load_each_spec d page_nums : forall w out,
  Forall (shows d) (items w) ->
  let st := fold_left (fun st page_num => load_page d page_num st) page_nums (w, out) in
  page_nums_of st.1 = page_nums_of w ++ filter (fun n => renders d n = true) page_nums
  /\ Forall (shows d) (items st.1)
  /\ st.2 = out ++ ((fun n => print (Error_loading_page (n + 1)))
                      <$> filter (fun n => renders d n = false) page_nums).
Proof.
  induction page_nums as [|n page_nums IH]; intros w out Hw.
  { simpl. rewrite !filter_nil. simpl. by rewrite !(right_id_L [] (++)). }
  simpl. rewrite !filter_cons.
  destruct (getitem d n ≫= _) as [pix|e] eqn:Hpix.
  - assert (renders d n = true) as Hn by (unfold renders; by rewrite Hpix).
    destruct (IH (addItem {| text := "Page " +:+ pretty (n + 1)%nat;
                            user_data := (n, pix) |} w) out) as (Hnums & Hitems & Hout).
    { apply Forall_app. split; [done|]. by repeat constructor. }
    simpl in Hnums, Hitems, Hout. rewrite Hnums, Hout.
    rewrite decide_True, decide_False by (by rewrite ?Hn). split; [|done].
    unfold page_nums_of, addItem. simpl. by rewrite fmap_app, <- (assoc_L (++)).
  - assert (renders d n = false) as Hn by (unfold renders; by rewrite Hpix).
    destruct (IH w (out ++ [print (Error_loading_page (n + 1))])) as (Hnums & Hitems & Hout);
      [done|].
    simpl in Hnums, Hitems, Hout. rewrite Hnums, Hout.
    rewrite decide_False, decide_True by (by rewrite ?Hn). split; [done|]. split; [done|].
    by rewrite <- (assoc_L (++)).
Qed.

(** What [load_pages] leaves for a document, in terms of the loop. *)
Lemma load_pages_spec d w :
  page_nums_of (load_pages (Some d) w).1
    = filter (fun n => renders d n = true) (seq 0 (len d))
  /\ Forall (shows d) (items (load_pages (Some d) w).1)
  /\ (load_pages (Some d) w).2
     = (fun n => print (Error_loading_page (n + 1)))
         <$> filter (fun n => renders d n = false) (seq 0 (len d))
  /\ placeholder_visible (load_pages (Some d) w).1
     = (length (items (load_pages (Some d) w).1) =? 0)%nat.
Proof.
  unfold load_pages, truthy. destruct (len d =? 0)%nat eqn:Hlen.
  - apply Nat.eqb_eq in Hlen. rewrite Hlen. simpl. by repeat constructor.
  - destruct (load_each_spec d (seq 0 (len d)) (clear w) []) as (Hnums & Hitems & Hout);
      [constructor|].
    destruct (fold_left _ _ _) as [w' out]. simpl in *. by rewrite Hout.
Qed.

(** X6. After [load_pages] on a document the list holds one item for each
    page whose thumbnail renders, in the order of the pages and labelled
    "Page n+1" with the page's own thumbnail; one message is printed for
    each page whose thumbnail fails; the placeholder is visible exactly when
    no item was made. What the list held before plays no part. *)
Theorem load_pages_items d w :
  page_nums_of (load_pages (Some d) w).1
    = filter (fun n => renders d n = true) (seq 0 (len d))
  /\ Forall (shows d) (items (load_pages (Some d) w).1)
  /\ printed (load_pages (Some d) w).2
     = (fun n => Error_loading_page (n + 1))
         <$> filter (fun n => renders d n = false) (seq 0 (len d))
  /\ (placeholder_visible (load_pages (Some d) w).1 = true
      <-> page_nums_of (load_pages (Some d) w).1 = []).
Proof.
  destruct (load_pages_spec d w) as (Hnums & Hitems & Hout & Hvisible).
  split; [done|]. split; [done|]. split.
  - rewrite Hout. unfold printed. generalize (filter (fun n => renders d n = false) (seq 0 (len d))).
    intros l. induction l as [|n l IH]; [done|]. simpl. f_equal. exact IH.
  - rewrite Hvisible. unfold page_nums_of. rewrite Nat.eqb_eq.
    destruct (items _); simpl; split; intros; (done || lia).
Qed.

(** X7. When the thumbnail of every page renders, the list holds one item
    per page and the item at row [r] is the one of page offset [r]: the row
    the exports read is the page the item shows. Nothing is printed. *)
Theorem load_pages_rows d w :
  Forall (fun page => exists pix, thumbnail page = Return pix) (pages d) ->
  count (load_pages (Some d) w).1 = len d
  /\ page_nums_of (load_pages (Some d) w).1 = seq 0 (len d)
  /\ (forall r item, items (load_pages (Some d) w).1 !! r = Some item ->
        (user_data item).1 = r /\ shows d item)
  /\ (load_pages (Some d) w).2 = [].
Proof.
  intros Hall. destruct (load_pages_spec d w) as (Hnums & Hitems & Hout & _).
  assert (Hrenders : forall n, n ∈ seq 0 (len d) -> renders d n = true).
  { intros n [_ Hn]%elem_of_seq. unfold renders, getitem.
    destruct (lookup_lt_is_Some_2 (pages d) n) as [page Hpage]; [unfold len in Hn; lia|].
    rewrite Hpage. simpl. rewrite Forall_forall in Hall.
    destruct (Hall page) as [pix ->]; [|done]. by eapply list_elem_of_lookup_2. }
  assert (Hfilter : forall l, (forall n, n ∈ l -> renders d n = true) ->
            filter (fun n => renders d n = true) l = l
            /\ filter (fun n => renders d n = false) l = []).
  { intros l. induction l as [|n l IH]; intros Hl; [done|].
    rewrite !filter_cons. rewrite decide_True by (apply Hl; by left).
    rewrite decide_False by (rewrite Hl; [done|by left]).
    destruct IH as [-> ->]; [|done]. intros n' ?. apply Hl. by right. }
  destruct (Hfilter _ Hrenders) as [Hyes Hno]. rewrite Hyes in Hnums. rewrite Hno in Hout.
  assert (Hcount : count (load_pages (Some d) w).1 = len d).
  { unfold count. rewrite <- (length_fmap (fun item => (user_data item).1)).
    fold (page_nums_of (load_pages (Some d) w).1). by rewrite Hnums, length_seq. }
  split; [done|]. split; [done|]. split; [|done].
  intros r item Hr. split.
  - assert (page_nums_of (load_pages (Some d) w).1 !! r = Some (user_data item).1) as Hn.
    { unfold page_nums_of. by rewrite list_lookup_fmap, Hr. }
    rewrite Hnums in Hn. apply lookup_seq in Hn. lia.
  - rewrite Forall_forall in Hitems. apply Hitems. by eapply list_elem_of_lookup_2.
Qed.

Lemma load_pages_rows_witness :
  count (load_pages (Some Sample.three_pages) (page_list init)).1 = 3%nat
  /\ page_nums_of (load_pages (Some Sample.three_pages) (page_list init)).1 = [0; 1; 2]%nat.
Proof.
  destruct (load_pages_rows Sample.three_pages (page_list init)) as (Hcount & Hnums & _).
  { repeat constructor; by eexists. }
  split; [exact Hcount|exact Hnums].
Defined.

(** * Further invariants of sessions *)

Lemma NoDup_remove_row r rows : NoDup rows -> NoDup (remove_row r rows).
Proof. unfold remove_row. apply NoDup_filter. Qed.

Lemma NoDup_setSelected r w : NoDup (selection w) -> NoDup (selection (setSelected r w)).
Proof.
  intros Hw. simpl. apply NoDup_app. split; [by apply NoDup_remove_row|].
  split; [|apply NoDup_singleton].
  intros r' [Hne _]%elem_of_remove_row ->%list_elem_of_singleton. done.
Qed.

Lemma NoDup_select_each pages : forall w,
  NoDup (selection w) -> NoDup (selection (select_each pages w)).
Proof.
  induction pages as [|p pages IH]; intros w Hw; simpl; [done|].
  apply IH. destruct (_ && _); [by apply NoDup_setSelected|done].
Qed.

Lemma items_select_each pages : forall w, items (select_each pages w) = items w.
Proof.
  induction pages as [|p pages IH]; intros w; simpl; [done|].
  rewrite IH. by destruct (_ && _).
Qed.

Lemma placeholder_select_each pages : forall w,
  placeholder_visible (select_each pages w) = placeholder_visible w.
Proof.
  induction pages as [|p pages IH]; intros w; simpl; [done|].
  rewrite IH. by destruct (_ && _).
Qed.

Lemma well_formed_init : well_formed init.
Proof. split; [constructor|]. split; [constructor|]. intros d. discriminate. Qed.

Lemma well_formed_same_window self self' :
  page_list self' = page_list self -> pdf_doc self' = pdf_doc self ->
  well_formed self -> well_formed self'.
Proof. unfold well_formed. intros -> ->. done. Qed.

Lemma load_pdf_well_formed file_path opened self :
  well_formed self -> well_formed (load_pdf file_path opened self).1.
Proof.
  intros (Hsel & Hsorted & Hshows). unfold load_pdf. destruct opened as [d|e]; simpl.
  - destruct (load_pages_spec d (page_list self)) as (Hnums & Hitems & _).
    destruct (load_pages_fresh (Some d) (page_list self)) as [Hfresh _].
    destruct (load_pages _ _) as [w out]. simpl in *.
    split; simpl; [rewrite Hfresh; constructor|]. split.
    + rewrite Hnums. apply StronglySorted_filter_seq.
    + by intros d' [= <-].
  - split; [done|]. split; [done|]. intros d. discriminate.
Qed.

Lemma click_well_formed r self :
  well_formed self -> well_formed (set_page_list (click r (page_list self)) self).
Proof.
  intros (Hsel & Hsorted & Hshows). unfold click.
  destruct (decide (r < count (page_list self))%nat); [|done].
  destruct (decide (r ∈ selection (page_list self))); (split; [|done]); simpl.
  - by apply NoDup_remove_row.
  - by apply (NoDup_setSelected r (page_list self)).
Qed.

Section SessionInvariants.
Variable max_str_digits : nat.

Lemma select_pages_well_formed self :
  well_formed self -> well_formed (select_pages max_str_digits self).1.
Proof.
  intros (Hsel & Hsorted & Hshows). unfold select_pages.
  destruct (truthy (pdf_doc self)) as [d|]; [|done].
  destruct (strip (range_input self)) as [|c r]; [done|].
  destruct (parse_page_range _ _ _) as [[|p pages]|e]; cbn -[select_each]; try done.
  unfold well_formed, page_nums_of. cbn -[select_each]. rewrite items_select_each.
  split; [|done]. apply NoDup_select_each. simpl. constructor.
Qed.

Lemma step_well_formed a self :
  well_formed self -> well_formed (step max_str_digits a self).1.
Proof.
  intros Hself. destruct a; simpl.
  - by apply load_pdf_well_formed.
  - unfold convert_doc_to_pdf. destruct converted; [|done].
    pose proof (load_pdf_well_formed (pdf_beside doc_path) opened self Hself).
    by destruct (load_pdf _ _ _).
  - done.
  - done.
  - unfold browse_folder. by destruct folder.
  - by apply click_well_formed.
  - by apply select_pages_well_formed.
  - destruct (extract_pages_window env self). by eapply well_formed_same_window.
  - destruct (extract_separate_pages_window env self).
    by eapply well_formed_same_window.
  - destruct (extract_as_pdf_window env chosen self).
    by eapply well_formed_same_window.
Qed.

Lemma run_well_formed session : forall self,
  well_formed self -> well_formed (run max_str_digits session self).1.
Proof.
  induction session as [|a session IH]; intros self Hself; simpl; [done|].
  pose proof (step_well_formed a self Hself) as Hstep.
  destruct (step _ a self) as [self1 out1]. simpl in Hstep.
  specialize (IH self1 Hstep). by destruct (run _ session self1).
Qed.

(** X8. After any session from the start of the program no selected offset
    is held twice: clicks toggle, the range selection starts from an empty
    selection and the parser returns no page twice. So no export handles a
    page twice. *)
Theorem selection_without_duplicates session :
  NoDup (selected_offsets (run max_str_digits session init).1).
Proof.
  rewrite selected_offsets_selection.
  by destruct (run_well_formed session init well_formed_init) as (Hsel & _).
Qed.

(** X9. After any session the items of the list stand in the order of
    their page numbers, no page twice, and while a document is loaded every
    item is labelled with the number of a page of that document and carries
    that page's thumbnail: the list never shows pages of a document that was
    replaced. *)
Theorem thumbnails_of_loaded_document session :
  StronglySorted lt (page_nums_of (page_list (run max_str_digits session init).1))
  /\ match pdf_doc (run max_str_digits session init).1 with
     | Some d => Forall (shows d) (items (page_list (run max_str_digits session init).1))
     | None => True
     end.
Proof.
  destruct (run_well_formed session init well_formed_init) as (_ & Hsorted & Hshows).
  split; [done|]. destruct (pdf_doc _) as [d|]; [|done]. by apply Hshows.
Qed.
End SessionInvariants.

(** * Further properties of selecting by range *)

Section SelectFurther.
Variable max_str_digits : nat.

(** X10. With a document loaded, a range in which some part has two dashes
    or more makes [select_pages] show "Invalid page range" with the
    [ValueError] of the parser, whatever else the range holds; the window,
    and so the selection, stays as it was. *)
Theorem select_pages_two_dashes self d :
  truthy (pdf_doc self) = Some d ->
  Exists two_dashes (split "," (strip (range_input self))) ->
  select_pages max_str_digits self
  = (self, [show_error (Invalid_page_range ValueError)]).
Proof.
  intros Hd Hex. unfold select_pages. rewrite Hd.
  destruct (strip (range_input self)) as [|c r] eqn:Hstrip.
  { apply Exists_cons in Hex as [Hbad|[]%Exists_nil].
    unfold two_dashes in Hbad. simpl in Hbad. lia. }
  unfold parse_page_range. by rewrite parse_parts_two_dashes.
Qed.

(** X11. [select_pages] never touches the document, the file name, the
    items of the list, the placeholder or the two text fields: only the
    selection and the status bar can change. It shows nothing when it
    selects, and exactly one error, with the window unchanged, when it does
    not. *)
Theorem select_pages_frame self :
  pdf_doc (select_pages max_str_digits self).1 = pdf_doc self
  /\ current_file (select_pages max_str_digits self).1 = current_file self
  /\ items (page_list (select_pages max_str_digits self).1) = items (page_list self)
  /\ placeholder_visible (page_list (select_pages max_str_digits self).1)
     = placeholder_visible (page_list self)
  /\ range_input (select_pages max_str_digits self).1 = range_input self
  /\ folder_path (select_pages max_str_digits self).1 = folder_path self
  /\ ((select_pages max_str_digits self).2 = []
      \/ exists m, select_pages max_str_digits self = (self, [show_error m])).
Proof.
  unfold select_pages.
  destruct (truthy (pdf_doc self)) as [d|]; [|repeat split; eauto].
  destruct (strip (range_input self)) as [|c r]; [repeat split; eauto|].
  destruct (parse_page_range _ _ _) as [[|p pages]|e]; cbn -[select_each];
    [repeat split; eauto| |repeat split; eauto].
  rewrite items_select_each, placeholder_select_each. repeat split; eauto.
Qed.

(** X12. When [select_pages] selects, the status bar reports the number of
    pages the parser found. The number of rows selected is never larger, and
    it is that number when the list holds an item for every page. *)
Theorem select_pages_status self d pages :
  truthy (pdf_doc self) = Some d ->
  strip (range_input self) <> EmptyString ->
  parse_page_range max_str_digits (strip (range_input self)) (Z.of_nat (len d))
    = Return pages ->
  pages <> [] ->
  status_bar (select_pages max_str_digits self).1 = Selected_pages (length pages)
  /\ (length (selected_offsets (select_pages max_str_digits self).1) <= length pages)%nat
  /\ (count (page_list self) = len d ->
      length (selected_offsets (select_pages max_str_digits self).1) = length pages).
Proof.
  intros Hd Htext Hparse Hpages.
  assert (Hbounds : StronglySorted Z.lt pages
                    /\ Forall (fun p => 1 <= p <= Z.of_nat (len d)) pages).
  { unfold parse_page_range in Hparse.
    destruct (parse_parts _ _ _ _) as [found|] eqn:Hparts; simpl in Hparse; [|done].
    injection Hparse as <-. split; [apply sorted_ascending|].
    apply Forall_forall. intros p Hp%elem_of_sorted.
    destruct (parse_parts_bounds _ _ _ _ _ Hparts p Hp) as [[]%not_elem_of_empty|?]; done. }
  destruct Hbounds as [Hsorted Hbounds].
  rewrite selected_offsets_selection. unfold select_pages. rewrite Hd.
  destruct (strip (range_input self)) as [|c r]; [done|].
  rewrite Hparse. destruct pages as [|p pages']; [done|].
  cbn [mbind result_bind mret result_ret catch_Exception fst page_list status_bar
         showMessage set_page_list].
  split; [done|].
  rewrite select_each_ascending; [|done| |].
  - change (selection (clearSelection (page_list self))) with (@nil nat).
    change (count (clearSelection (page_list self))) with (count (page_list self)).
    cbn [app]. unfold marked_rows. rewrite length_fmap. split; [apply length_filter|].
    intros Hcount. f_equal. rewrite Hcount.
    clear -Hbounds. induction Hbounds as [|q qs [_ Hq] _ IH]; [done|].
    rewrite filter_cons_True by done. by rewrite IH.
  - eapply Forall_impl; [exact Hbounds|]. simpl. lia.
  - intros r0 q Hr0. simpl in Hr0. by apply elem_of_nil in Hr0.
Qed.
End SelectFurther.

Lemma select_pages_two_dashes_witness :
  select_pages 4300 (step 4300 (Type_range "2,1-2-3") Sample.clicked_3_then_1).1
  = ((step 4300 (Type_range "2,1-2-3") Sample.clicked_3_then_1).1,
     [show_error (Invalid_page_range ValueError)]).
Proof.
  apply (select_pages_two_dashes 4300 _ Sample.three_pages); [reflexivity|].
  right. left. unfold two_dashes. vm_compute. lia.
Defined.

Lemma select_pages_status_witness :
  status_bar (select_pages 4300 Sample.entered_3_1).1 = Selected_pages 2
  /\ (length (selected_offsets (select_pages 4300 Sample.entered_3_1).1) <= 2)%nat.
Proof.
  destruct (select_pages_status 4300 Sample.entered_3_1 Sample.three_pages [1; 3])
    as (Hstatus & Hle & _);
    [reflexivity|discriminate|vm_compute; reflexivity|discriminate|].
  split; [exact Hstatus|exact Hle].
Defined.

(** * Further properties of the exports *)

Lemma saved_of_prints (msgs : list message) :
  images_saved (print <$> msgs) = [] /\ canvases_saved (print <$> msgs) = []
  /\ pdfs_saved (print <$> msgs) = [].
Proof. induction msgs as [|m msgs (? & ? & ?)]; done. Qed.

Lemma saved_of_made env folder made :
  ensure_folder env folder = Return made ->
  images_saved made = [] /\ canvases_saved made = [] /\ pdfs_saved made = []
  /\ printed made = [].
Proof. by intros [->| ->]%ensure_folder_effects. Qed.

Lemma collect_images_trace d page_nums : forall images out,
  exists msgs,
    collect_images d page_nums images out
      = (images ++ rasterized d page_nums, out ++ (print <$> msgs))
    /\ (length (rasterized d page_nums) + length msgs = length page_nums)%nat.
Proof.
  induction page_nums as [|n page_nums IH]; intros images out; simpl.
  { exists []. simpl. by rewrite !(right_id_L [] (++)). }
  unfold rasterized. simpl. destruct (rasterize d n) as [img|e]; simpl.
  - destruct (IH (images ++ [img]) out) as (msgs & -> & Hlen).
    exists msgs. rewrite <- (assoc_L (++)). split; [done|].
    unfold rasterized in Hlen. lia.
  - destruct (IH images (out ++ [print (Error_processing_page (n + 1))]))
      as (msgs & -> & Hlen).
    exists (Error_processing_page (n + 1) :: msgs). rewrite <- (assoc_L (++)).
    split; [done|]. unfold rasterized in Hlen. simpl. lia.
Qed.

Lemma save_each_trace env d folder page_nums : forall success_count out,
  exists events,
    (save_each env d folder page_nums success_count out).2 = out ++ events
    /\ (length (images_saved events) + length (printed events) = length page_nums)%nat
    /\ forall n, n ∈ page_nums ->
         (exists img, save_image (join folder (page_filename n)) img ∈ events)
         \/ print (Error_extracting_page (n + 1)) ∈ events.
Proof.
  induction page_nums as [|n page_nums IH]; intros success_count out; simpl.
  { exists []. rewrite (right_id_L [] (++)). split; [done|]. split; [done|].
    by intros n []%elem_of_nil. }
  destruct (rasterize d n ≫= _) as [img|e].
  - destruct (IH (success_count + 1)%nat
                 (out ++ [save_image (join folder (page_filename n)) img]))
      as (events & -> & Hlen & Hall).
    exists (save_image (join folder (page_filename n)) img :: events).
    rewrite <- (assoc_L (++)). split; [done|]. split; [simpl; lia|].
    intros n' [->|Hn']%elem_of_cons.
    + left. exists img. by left.
    + destruct (Hall n' Hn') as [[img' ?]|?]; [left; exists img'|right]; by right.
  - destruct (IH success_count (out ++ [print (Error_extracting_page (n + 1))]))
      as (events & -> & Hlen & Hall).
    exists (print (Error_extracting_page (n + 1)) :: events).
    rewrite <- (assoc_L (++)). split; [done|]. split; [simpl; lia|].
    intros n' [->|Hn']%elem_of_cons.
    + right. by left.
    + destruct (Hall n' Hn') as [[img' ?]|?]; [left; exists img'|right]; by right.
Qed.

Lemma insert_each_in_range d selected_items : forall new_pdf,
  Forall (fun r => (r < len d)%nat) selected_items ->
  insert_each d selected_items new_pdf = Return (new_pdf ++ pages_at d selected_items)
  /\ length (pages_at d selected_items) = length selected_items.
Proof.
  unfold pages_at.
  induction selected_items as [|item items IH]; intros new_pdf Hall; simpl.
  { by rewrite (right_id_L [] (++)). }
  apply Forall_cons in Hall as [Hitem Hitems]. unfold getitem, row.
  rewrite Nat.min_l by lia.
  destruct (lookup_lt_is_Some_2 (pages d) item Hitem) as [page Hpage].
  rewrite Hpage. simpl. destruct (IH (new_pdf ++ [page]) Hitems) as [-> Hlen].
  rewrite <- (assoc_L (++)). split; [done|]. simpl. f_equal. exact Hlen.
Qed.

Lemma truthy_Some pdf_doc d : truthy pdf_doc = Some d -> pdf_doc = Some d.
Proof. unfold truthy. destruct pdf_doc as [d'|]; [|done]. by case_match. Qed.

Lemma same_but_status_refl self : same_but_status self self.
Proof. by repeat split. Qed.

(** X13. The three exports read the window and do not change it: the
    document, the file name, the list with its selection and the two text
    fields are the same afterwards; the status bar alone may differ. *)
Theorem exports_read_only env chosen self :
  same_but_status self (extract_pages env self).1
  /\ same_but_status self (extract_separate_pages env self).1
  /\ same_but_status self (extract_as_pdf env chosen self).1.
Proof.
  split; [|split].
  - unfold extract_pages. repeat case_match; try apply same_but_status_refl.
    all: destruct (collect_images _ _ _ _) as [[|? ?] ?];
      simpl; repeat case_match; by repeat split.
  - unfold extract_separate_pages. repeat case_match; try apply same_but_status_refl.
    all: destruct (save_each _ _ _ _ _ _) as [? ?]; simpl; repeat case_match;
      by repeat split.
  - unfold extract_as_pdf. repeat case_match; by repeat split.
Qed.

(** X14. [extract_pages] writes no page image and no PDF, and at most one
    merged image. Either it saves the merged image, shows the success
    message for that file last and sets the status to "Extraction
    complete"; or it saves nothing, shows an error last and returns the
    window as it was. *)
Theorem extract_pages_outcome env self :
  images_saved (extract_pages env self).2 = []
  /\ pdfs_saved (extract_pages env self).2 = []
  /\ (((extract_pages env self).1 = self
       /\ canvases_saved (extract_pages env self).2 = []
       /\ exists m, last (extract_pages env self).2 = Some (show_error m))
      \/ exists file combined,
           (extract_pages env self).1 = showMessage Extraction_complete self
           /\ canvases_saved (extract_pages env self).2 = [(file, combined)]
           /\ last (extract_pages env self).2
              = Some (show_success (Saved_combined_image_to file))).
Proof.
  unfold extract_pages.
  destruct (truthy (pdf_doc self)) as [d|]; [|by repeat split; eauto].
  destruct (selectedItems (page_list self)) as [|item items];
    [by repeat split; eauto|].
  destruct (ensure_folder env (output_folder env self)) as [made|e] eqn:Hfolder;
    [|by repeat split; eauto].
  destruct (saved_of_made _ _ _ Hfolder) as (Hmi & Hmc & Hmp & _).
  destruct (collect_images_trace d (map row (item :: items)) [] made)
    as (msgs & -> & _).
  destruct (saved_of_prints msgs) as (Hpi & Hpc & Hpp).
  cbn [app]. destruct (rasterized d (map row (item :: items))) as [|img images].
  { unfold images_saved, pdfs_saved, canvases_saved in *. cbn [fst snd].
    rewrite !omap_app, Hmi, Hmp, Hmc, Hpi, Hpp, Hpc. simpl.
    split; [done|]. split; [done|]. left. split; [done|]. split; [done|].
    eexists. by rewrite last_snoc. }
  cbn [max_ map fmap list_fmap mbind result_bind].
  destruct (save env _) as [[]|e]; cbn [mbind result_bind mret result_ret fst snd];
    unfold images_saved, pdfs_saved, canvases_saved in *;
    rewrite !omap_app, Hmi, Hmp, Hmc, Hpi, Hpp, Hpc; simpl.
  - split; [done|]. split; [done|]. right. do 2 eexists. split; [done|]. split; [done|].
    by rewrite (last_app_cons _ _ _), last_cons_cons.
  - split; [done|]. split; [done|]. left. split; [done|]. split; [done|].
    eexists. by rewrite last_snoc.
Qed.

(** X15. [extract_as_pdf] is all or nothing. Either it saves one PDF at
    the chosen path, holding as many pages as there are selected items, and
    shows the success message; or it saves nothing at all, shows at most one
    message and returns the window as it was (no document, no selection, a
    cancelled dialog, a file that cannot be written). It never writes an
    image. *)
Theorem extract_as_pdf_outcome env chosen self :
  images_saved (extract_as_pdf env chosen self).2 = []
  /\ canvases_saved (extract_as_pdf env chosen self).2 = []
  /\ (((extract_as_pdf env chosen self).1 = self
       /\ pdfs_saved (extract_as_pdf env chosen self).2 = []
       /\ (length (extract_as_pdf env chosen self).2 <= 1)%nat)
      \/ exists new_pdf,
           extract_as_pdf env chosen self
           = (showMessage PDF_saved_successfully self,
              [save_pdf (path_of chosen) new_pdf;
               show_success (PDF_saved_to (path_of chosen))])
           /\ length new_pdf = length (selected_offsets self)).
Proof.
  unfold extract_as_pdf, selected_offsets.
  destruct (truthy (pdf_doc self)) as [d|]; [|by repeat split; eauto].
  destruct (selectedItems (page_list self)) as [|item items];
    [by repeat split; eauto|].
  destruct chosen as [|c r]; [repeat split; left; repeat split; simpl; lia|].
  destruct (insert_each d (item :: items) []) as [new_pdf|e] eqn:Hins;
    cbn [mbind result_bind]; [|by repeat split; eauto].
  destruct (save env _) as [[]|e]; cbn [mbind result_bind mret result_ret];
    [|by repeat split; eauto].
  split; [done|]. split; [done|]. right. exists new_pdf. split; [done|].
  apply insert_each_spec in Hins as (added & -> & Hadded).
  apply Forall2_length in Hadded. simpl in *. by rewrite length_map.
Qed.

Section ExportsInSessions.
Variable max_str_digits : nat.

(** X16. After any session, with a document loaded, pages selected, a path
    chosen and the file writable, "Save as PDF" succeeds: every selected
    offset is a page of the loaded document (C7), so each page is copied,
    and the PDF saved holds exactly the pages at the selected offsets, one
    per selected item, in the order of the selection. *)
Theorem extract_as_pdf_in_session session env chosen d :
  truthy (pdf_doc (run max_str_digits session init).1) = Some d ->
  selected_offsets (run max_str_digits session init).1 <> [] ->
  chosen <> EmptyString ->
  save env (path_of chosen) = Return tt ->
  extract_as_pdf env chosen (run max_str_digits session init).1
  = (showMessage PDF_saved_successfully (run max_str_digits session init).1,
     [save_pdf (path_of chosen)
        (pages_at d (selected_offsets (run max_str_digits session init).1));
      show_success (PDF_saved_to (path_of chosen))])
  /\ length (pages_at d (selected_offsets (run max_str_digits session init).1))
     = length (selected_offsets (run max_str_digits session init).1).
Proof.
  intros Hd Hsel Hchosen Hsave.
  destruct (run_consistent max_str_digits session init consistent_init) as [Hrows Hcount].
  generalize dependent (run max_str_digits session init).1. intros self Hd Hsel Hrows Hcount.
  specialize (Hcount d (truthy_Some _ _ Hd)).
  rewrite selected_offsets_selection in *.
  assert (Hin : Forall (fun r => (r < len d)%nat) (selection (page_list self))).
  { eapply Forall_impl; [exact Hrows|]. simpl. lia. }
  destruct (insert_each_in_range d (selection (page_list self)) [] Hin) as [Hins Hlen].
  split; [|done]. unfold extract_as_pdf, selectedItems. rewrite Hd.
  destruct (selection (page_list self)) as [|item items] eqn:Hs; [done|].
  destruct chosen as [|c r]; [done|]. rewrite Hins. cbn [mbind result_bind app].
  by rewrite Hsave.
Qed.
End ExportsInSessions.

(** X17. With a document loaded, pages selected and the output folder in
    place, [extract_separate_pages] accounts for every selected page: each
    is either written as its [page_<n+1>.png] or reported by a printed
    message naming page [n+1], and the files written and the messages
    printed are together as many as the selected pages. *)
Theorem extract_separate_pages_accounts env self d made :
  truthy (pdf_doc self) = Some d ->
  selectedItems (page_list self) <> [] ->
  ensure_folder env (output_folder env self) = Return made ->
  (length (images_saved (extract_separate_pages env self).2)
   + length (printed (extract_separate_pages env self).2)
   = length (selected_offsets self))%nat
  /\ forall n, n ∈ selected_offsets self ->
       (exists img, save_image (join (output_folder env self) (page_filename n)) img
                    ∈ (extract_separate_pages env self).2)
       \/ print (Error_extracting_page (n + 1)) ∈ (extract_separate_pages env self).2.
Proof.
  intros Hd Hsel Hfolder. unfold extract_separate_pages, selected_offsets.
  rewrite Hd. destruct (selectedItems (page_list self)) as [|item items]; [done|].
  rewrite Hfolder.
  destruct (save_each_trace env d (output_folder env self) (map row (item :: items)) 0 made)
    as (events & Hout & Hlen & Hall).
  destruct (save_each _ _ _ _ _ _) as [success_count out]. simpl in Hout. subst out.
  destruct (saved_of_made _ _ _ Hfolder) as (Hmi & _ & _ & Hmp).
  split.
  - rewrite <- Hlen. unfold images_saved, printed in *.
    destruct (0 <? success_count)%nat; cbn [snd];
      rewrite !omap_app, Hmi, Hmp; simpl; by rewrite !(right_id_L [] (++)).
  - intros n Hn. destruct (Hall n Hn) as [[img Himg]|Hprint].
    + left. exists img. destruct (0 <? success_count)%nat; cbn [snd];
        rewrite !elem_of_app; auto.
    + right. destruct (0 <? success_count)%nat; cbn [snd]; rewrite !elem_of_app; auto.
Qed.

Section FailedOpen.
Variable max_str_digits : nat.

(** X18. When a PDF cannot be opened, [load_pdf] shows the error and leaves
    the window without document, while the list keeps the thumbnails and the
    selection it had. From then on selecting and the three exports all
    answer "No document loaded!" and change nothing. A conversion whose PDF
    cannot be opened ends the same way, and still shows its success message
    after the error. *)
Theorem failed_open_blocks file_path doc_path e env chosen self :
  let failed := (load_pdf file_path (Raise e) self).1 in
  (load_pdf file_path (Raise e) self).2 = [show_error (Failed_to_load_PDF e)]
  /\ pdf_doc failed = None /\ page_list failed = page_list self
  /\ select_pages max_str_digits failed = (failed, [show_error No_document_loaded])
  /\ extract_pages env failed = (failed, [show_error No_document_loaded])
  /\ extract_separate_pages env failed = (failed, [show_error No_document_loaded])
  /\ extract_as_pdf env chosen failed = (failed, [show_error No_document_loaded])
  /\ convert_doc_to_pdf doc_path true (Raise e) self
     = ((load_pdf (pdf_beside doc_path) (Raise e) self).1,
        [os_system_soffice doc_path; show_error (Failed_to_load_PDF e);
         show_success (Converted_to_PDF (pdf_beside doc_path))]).
Proof. by repeat split. Qed.
End FailedOpen.

Lemma extract_as_pdf_in_session_witness :
  extract_as_pdf Sample.env "out.pdf" Sample.clicked_3_then_1
  = (showMessage PDF_saved_successfully Sample.clicked_3_then_1,
     [save_pdf (path_of "out.pdf") [Sample.page 7 7; Sample.page 10 20];
      show_success (PDF_saved_to (path_of "out.pdf"))]).
Proof.
  refine (proj1 (extract_as_pdf_in_session 4300
            [Load_pdf (path_of "a.pdf") (Return Sample.three_pages);
             Click_item 2%nat; Click_item 0%nat]
            Sample.env "out.pdf" Sample.three_pages _ _ _ _));
    [reflexivity|discriminate|discriminate|reflexivity].
Defined.

Lemma extract_separate_pages_accounts_witness :
  (length (images_saved (extract_separate_pages Sample.env
                           Sample.clicked_all_middle_broken).2)
   + length (printed (extract_separate_pages Sample.env
                        Sample.clicked_all_middle_broken).2)
   = 3)%nat.
Proof.
  refine (proj1 (extract_separate_pages_accounts Sample.env
                   Sample.clicked_all_middle_broken Sample.middle_broken [] _ _ _));
    [reflexivity|discriminate|reflexivity].
Defined.

(** * Drag and drop *)

Lemma lower_app a b : lower (a +:+ b) = lower a +:+ lower b.
Proof. induction a as [|c a IH]; simpl; [done|]. by rewrite IH. Qed.

Lemma string_app_assoc a b c : a +:+ (b +:+ c) = (a +:+ b) +:+ c.
Proof.
  induction a as [|x a IH]; [done|].
  change (String x (a +:+ (b +:+ c)) = String x ((a +:+ b) +:+ c)). by rewrite IH.
Qed.

Lemma string_length_app a b :
  String.length (a +:+ b) = (String.length a + String.length b)%nat.
Proof. induction a as [|c a IH]; simpl; [done|]. by rewrite IH. Qed.

Lemma endswith_unfold s suffix :
  endswith s suffix
  = if String.eqb s suffix then true
    else match s with
         | String _ r => endswith r suffix
         | EmptyString => false
         end.
Proof. by destruct s. Qed.

Lemma endswith_app a suffix : endswith (a +:+ suffix) suffix = true.
Proof.
  induction a as [|c a IH].
  - change (EmptyString +:+ suffix) with suffix.
    by rewrite endswith_unfold, String.eqb_refl.
  - change (String c a +:+ suffix) with (String c (a +:+ suffix)).
    rewrite endswith_unfold, IH. by destruct (String.eqb _ _).
Qed.

(** A string does not end with a longer one. *)
Lemma endswith_shorter s suffix :
  (String.length s < String.length suffix)%nat -> endswith s suffix = false.
Proof.
  induction s as [|c s IH]; intros Hlen.
  - simpl. destruct suffix; [simpl in Hlen; lia|done].
  - rewrite endswith_unfold.
    destruct (String.eqb_spec (String c s) suffix) as [<-|_]; [lia|].
    apply IH. simpl in Hlen. lia.
Qed.

(** Of two endings of the same length a string has one only. *)
Lemma endswith_other a ending suffix :
  String.length ending = String.length suffix -> ending <> suffix ->
  endswith (a +:+ ending) suffix = false.
Proof.
  intros Hlen Hne. induction a as [|c a IH].
  - change (EmptyString +:+ ending) with ending. destruct ending as [|c ending].
    + destruct suffix; [done|discriminate].
    + rewrite endswith_unfold.
      destruct (String.eqb_spec (String c ending) suffix) as [?|_]; [done|].
      apply endswith_shorter. simpl in Hlen. lia.
  - change (String c a +:+ ending) with (String c (a +:+ ending)).
    rewrite endswith_unfold.
    destruct (String.eqb_spec (String c (a +:+ ending)) suffix) as [Heq|_]; [|done].
    apply (f_equal String.length) in Heq. simpl in Heq.
    rewrite string_length_app in Heq. lia.
Qed.

(** X19. [dropEvent] goes by the ending of the first dropped file name,
    whatever the case of its letters and whatever comes before: a name
    ending in [.pdf] is loaded, under the name as it was dropped; a name
    ending in [.doc] or [.docx] is converted; the other dropped files are
    not looked at. *)
Theorem dropEvent_by_ending mimeData converted opened self stem ending others :
  urls mimeData = (stem +:+ ending) :: others ->
  (lower ending = ".pdf" ->
   dropEvent mimeData converted opened self
   = load_pdf (path_of (stem +:+ ending)) opened self)
  /\ (lower ending = ".doc" \/ lower ending = ".docx" ->
      dropEvent mimeData converted opened self
      = convert_doc_to_pdf (path_of (stem +:+ ending)) converted opened self).
Proof.
  intros Hurls. unfold dropEvent. rewrite Hurls, lower_app. split.
  - intros ->. by rewrite endswith_app.
  - intros [-> | ->].
    + rewrite (endswith_other _ ".doc" ".pdf") by done.
      unfold endswith_any. cbn [existsb]. by rewrite endswith_app.
    + change (lower stem +:+ ".docx") with (lower stem +:+ ("." +:+ "docx")).
      rewrite (string_app_assoc (lower stem) "." "docx").
      rewrite (endswith_other _ "docx" ".pdf") by done.
      rewrite <- (string_app_assoc (lower stem) "." "docx").
      change ("." +:+ "docx") with ".docx".
      unfold endswith_any. cbn [existsb]. rewrite (endswith_app (lower stem) ".docx").
      by rewrite orb_true_r.
Qed.

(** X20. [dragEnterEvent] accepts a drag when any of its files is a
    document, but [dropEvent] looks at the first file only: when the first
    file is not a document the drop does nothing, even though the drag was
    accepted because of a later file. A drag that carries URLs and was
    refused does nothing when dropped. *)
Theorem dropEvent_first_file mimeData converted opened self first others :
  urls mimeData = first :: others ->
  is_document first = false ->
  dropEvent mimeData converted opened self = (self, [])
  /\ (dragEnterEvent mimeData = true <->
      hasUrls mimeData = true /\ exists url, url ∈ others /\ is_document url = true).
Proof.
  intros Hurls Hfirst. unfold is_document, endswith_any in Hfirst. simpl in Hfirst.
  apply orb_false_iff in Hfirst as [Hpdf Hdoc]. split.
  - unfold dropEvent, endswith_any. rewrite Hurls, Hpdf. simpl. by rewrite Hdoc.
  - unfold dragEnterEvent. rewrite Hurls. destruct (hasUrls mimeData).
    + cbn [existsb]. unfold endswith_any at 1. simpl. rewrite Hpdf, Hdoc. simpl.
      rewrite existsb_exists. split.
      * intros (url & Hin & Hdocument). split; [done|]. exists url.
        by rewrite list_elem_of_In.
      * intros (_ & url & Hin & Hdocument). exists url. by rewrite <- list_elem_of_In.
    + split; [done|]. by intros [? _].
Qed.

Lemma dropEvent_by_ending_witness :
  dropEvent {| hasUrls := true; urls := ["C:/Docs/Report.PDF"; "b.txt"] |} false
    (Return Sample.one_page) init
  = load_pdf (path_of "C:/Docs/Report.PDF") (Return Sample.one_page) init.
Proof.
  refine (proj1 (dropEvent_by_ending _ false (Return Sample.one_page) init
                   "C:/Docs/Report" ".PDF" ["b.txt"] _) _); reflexivity.
Defined.

Lemma dropEvent_first_file_witness :
  dropEvent {| hasUrls := true; urls := ["notes.txt"; "a.pdf"] |} true
    (Return Sample.one_page) init = (init, [])
  /\ dragEnterEvent {| hasUrls := true; urls := ["notes.txt"; "a.pdf"] |} = true.
Proof.
  destruct (dropEvent_first_file {| hasUrls := true; urls := ["notes.txt"; "a.pdf"] |}
              true (Return Sample.one_page) init "notes.txt" ["a.pdf"])
    as [Hdrop Haccept]; [reflexivity|reflexivity|].
  split; [exact Hdrop|reflexivity].
Defined.
